(** * Taskfile graph demo: the printing core of [main.go]

    A shallow embedding of the three printers of [main.go] (inclusion graph,
    flat task list, dependency tree) and of [buildTaskDependencyGraph], as
    programs of a small monad over a world that holds the merged Taskfile,
    the Taskfile graph and the bytes written to standard output. *)

From Stdlib Require Import ZArith Lia.
From stdpp Require Import base option list strings pretty gmap relations.

Local Open Scope Z_scope.

(** ** Data of [github.com/go-task/task/v3/taskfile/ast] read by the program *)

(** The line feed written by a ["\n"] in a Go format string. *)
Definition nl : string := String (Ascii.ascii_of_nat 10) "".

Module Dep.
(** [ast.Dep]: only the [Task] field is read. *)
Record t : Type := Build { Task : string }.
End Dep.

Module Cmd.
(** [ast.Cmd]: the literal command [Cmd] and the called task [Task].
    Both are plain strings and either may be empty. *)
Record t : Type := Build { Cmd : string; Task : string }.
End Cmd.

Module Task.
(** [ast.Task]: description, explicit dependencies and commands,
    the two slices in declared order. *)
Record t : Type := Build { Desc : string; Deps : list Dep.t; Cmds : list Cmd.t }.
End Task.

Module Include.
(** [ast.Include]: the literal locator of the included Taskfile. *)
Record t : Type := Build { Taskfile : string }.
End Include.

Module Tasks.
(** [ast.Tasks] is an ordered map: [All(nil)] yields the entries in the
    map's own order and [Get] finds an entry by its key.  The entries
    are kept as an association list in iteration order. *)
Definition t : Type := list (string * Task.t).

Definition All (ts : t) : list (string * Task.t) := ts.

Fixpoint Get (ts : t) (key : string) : option Task.t :=
  match ts with
  | [] => None
  | (k, v) :: rest => if decide (k = key) then Some v else Get rest key
  end.

Definition keys (ts : t) : list string := ts.*1.
End Tasks.

Module Includes.
(** [ast.Includes] is an ordered map from namespace to include. *)
Definition t : Type := list (string * Include.t).
Definition Len (incs : t) : nat := length incs.
Definition All (incs : t) : list (string * Include.t) := incs.
End Includes.

Module Taskfile.
(** [ast.Taskfile]; [Version] stands for the text of [Version.String()]. *)
Record t : Type := Build
  { Location : string; Version : string; Includes : Includes.t; Tasks : Tasks.t }.
End Taskfile.

Module TaskfileVertex.
(** [ast.TaskfileVertex]: a location and the Taskfile parsed there. *)
Record t : Type := Build { URI : string; Taskfile : Taskfile.t }.
End TaskfileVertex.

Module TaskfileGraph.
(** [ast.TaskfileGraph] wraps a directed graph of the graph library:
    vertices stored under their hash, and edges between hashes. *)
Record t : Type := Build
  { vertices : gmap string TaskfileVertex.t; edges : list (string * string) }.

(** [Vertex(hash)]: the vertex, or an error when the hash is unknown. *)
Definition Vertex (g : t) (hash : string) : option TaskfileVertex.t :=
  vertices g !! hash.

Definition edge (g : t) (u v : string) : Prop := (u, v) ∈ edges g.

(** A cycle: some vertex reaches itself along at least one edge. *)
Definition cyclic (g : t) : Prop := ∃ v, tc (edge g) v v.

(** What a successful topological sort returns: every stored hash once,
    and the source of every edge at an earlier index than its target. *)
Definition topological_order (g : t) (hashes : list string) : Prop :=
  NoDup hashes ∧
  (∀ h, h ∈ hashes ↔ is_Some (vertices g !! h)) ∧
  (∀ u v, edge g u v →
     ∃ i j : nat, (i < j)%nat ∧ hashes !! i = Some u ∧ hashes !! j = Some v).
End TaskfileGraph.

(** ** The world and the monad of the program *)

(** [mergedTaskfile] and [taskfileGraph] are the two objects built by the
    reader before the printing starts; [stdout] is what has been written. *)
Record World : Type := mkWorld
  { mergedTaskfile : Taskfile.t;
    taskfileGraph : TaskfileGraph.t;
    stdout : string }.

Definition print_to (w : World) (s : string) : World :=
  {| mergedTaskfile := mergedTaskfile w;
     taskfileGraph := taskfileGraph w;
     stdout := stdout w +:+ s |}.

Definition set_stdout (w : World) (s : string) : World :=
  {| mergedTaskfile := mergedTaskfile w;
     taskfileGraph := taskfileGraph w;
     stdout := s |}.

(** A run returns, panics with a message, or exhausts the fuel that bounds
    the depth of the recursion of [showDependencyTree]. *)
Inductive Outcome (A : Type) : Type :=
  | Returned (a : A) (w : World)
  | Panic (msg : string) (w : World)
  | OutOfFuel.
Arguments Returned {A} a w.
Arguments Panic {A} msg w.
Arguments OutOfFuel {A}.

Definition M (A : Type) : Type := World → Outcome A.

#[global] Instance M_ret : MRet M := λ A a w, Returned a w.
#[global] Instance M_bind : MBind M := λ A B k m w,
  match m w with
  | Returned a w' => k a w'
  | Panic msg w' => Panic msg w'
  | OutOfFuel => OutOfFuel
  end.

(** [fmt.Printf] with the format already expanded to the text [s]. *)
Definition printf (s : string) : M unit := λ w, Returned tt (print_to w s).

Definition panic {A} (msg : string) : M A := λ w, Panic msg w.

Definition out_of_fuel {A} : M A := λ _, OutOfFuel.

(** [tf.Tasks.Get(name)] and [tf.Tasks.All(nil)] on the merged Taskfile. *)
Definition Tasks_Get (name : string) : M (option Task.t) :=
  λ w, Returned (Tasks.Get (Taskfile.Tasks (mergedTaskfile w)) name) w.

Definition Tasks_All : M (list (string * Task.t)) :=
  λ w, Returned (Tasks.All (Taskfile.Tasks (mergedTaskfile w))) w.

Definition Graph_Vertex (hash : string) : M (option TaskfileVertex.t) :=
  λ w, Returned (TaskfileGraph.Vertex (taskfileGraph w) hash) w.

(** A [for _, x := range xs] loop. *)
Fixpoint forM_ {X} (xs : list X) (body : X → M unit) : M unit :=
  match xs with
  | [] => mret tt
  | x :: rest => body x;; forM_ rest body
  end.

(** A [for i, x := range xs] loop, [i] starting at [start]. *)
Fixpoint forM_indexed {X} (start : nat) (xs : list X) (body : nat → X → M unit) : M unit :=
  match xs with
  | [] => mret tt
  | x :: rest => body start x;; forM_indexed (S start) rest body
  end.

(** [if cond { ... }] with no else branch. *)
Definition when_ (cond : bool) (m : M unit) : M unit :=
  if cond then m else mret tt.

(** ** Machine integers *)

(** Go's [int] on a 64 bit platform: addition wraps around. *)
Definition max_int : Z := 2 ^ 63 - 1.
Definition wrap_int (z : Z) : Z := (z + 2 ^ 63) `mod` 2 ^ 64 - 2 ^ 63.
Definition add_int (a b : Z) : Z := wrap_int (a + b).

(** ** [showDependencyTree] (main.go, lines 172 to 201) *)

(** The loop [for i := 0; i < depth; i++ { indent += "  " }]. *)
Definition indent_of (depth : Z) : string :=
  Nat.iter (Z.to_nat depth) (λ indent, indent +:+ "  ") "".

Definition nonempty (s : string) : bool := bool_decide (s ≠ "").

Fixpoint showDependencyTree (fuel : nat) (taskName : string) (depth : Z) : M unit :=
  match fuel with
  | O => out_of_fuel
  | S fuel' =>
      let indent := indent_of depth in
      found ← Tasks_Get taskName;
      match found with
      | None => printf (indent +:+ taskName +:+ " (not found)" +:+ nl)
      | Some task =>
          printf (indent +:+ taskName);;
          when_ (nonempty (Task.Desc task)) (printf (" - " +:+ Task.Desc task));;
          printf nl;;
          forM_ (Task.Deps task) (λ dep,
            showDependencyTree fuel' (Dep.Task dep) (add_int depth 1));;
          forM_ (Task.Cmds task) (λ cmd,
            when_ (nonempty (Cmd.Task cmd))
              (showDependencyTree fuel' (Cmd.Task cmd) (add_int depth 1)))
      end
  end.

(** ** [buildTaskDependencyGraph] (main.go, lines 147 to 169) *)

Definition taskDeps_of (task : Task.t) : list string :=
  let taskDeps := foldl (λ acc dep, acc ++ [Dep.Task dep]) [] (Task.Deps task) in
  foldl (λ acc cmd, if nonempty (Cmd.Task cmd) then acc ++ [Cmd.Task cmd] else acc)
        taskDeps (Task.Cmds task).

Definition buildTaskDependencyGraph : M (gmap string (list string)) :=
  all ← Tasks_All;
  mret (foldl (λ (deps : gmap string (list string)) '(taskName, task),
                 <[taskName := taskDeps_of task]> deps) ∅ all).

(** ** The inclusion graph printer (main.go, lines 84 to 98) *)

Definition printIncludes (vertex : TaskfileVertex.t) : M unit :=
  let includes := Taskfile.Includes (TaskfileVertex.Taskfile vertex) in
  when_ (bool_decide (0 < Includes.Len includes)%nat)
    (printf ("   Includes:" +:+ nl);;
     forM_ (Includes.All includes) (λ '(namespace, include),
       printf ("     - " +:+ namespace +:+ ": " +:+ Include.Taskfile include +:+ nl))).

(** The index [i] of a slice element is below the length of the slice,
    itself an [int], so [i+1] is computed without wrap-around. *)
Definition inclusionGraphPrinter (hashes : list string) : M unit :=
  forM_indexed 0 hashes (λ i hash,
    found ← Graph_Vertex hash;
    match found with
    | None => mret tt
    | Some vertex =>
        printf (pretty (Z.of_nat i + 1) +:+ ". Taskfile: "
                +:+ TaskfileVertex.URI vertex +:+ nl);;
        printIncludes vertex
    end).

(** ** The flat task lister (main.go, lines 105 to 131) *)

Definition listCmd (cmd : Cmd.t) : M unit :=
  when_ (nonempty (Cmd.Cmd cmd)) (printf ("    - cmd: " +:+ Cmd.Cmd cmd +:+ nl));;
  when_ (nonempty (Cmd.Task cmd)) (printf ("    - task: " +:+ Cmd.Task cmd +:+ nl)).

Definition listTask (taskName : string) (task : Task.t) : M unit :=
  printf ("Task: " +:+ taskName);;
  when_ (nonempty (Task.Desc task)) (printf (" - " +:+ Task.Desc task));;
  printf nl;;
  when_ (bool_decide (0 < length (Task.Deps task))%nat)
    (printf ("  Dependencies:" +:+ nl);;
     forM_ (Task.Deps task) (λ dep, printf ("    - " +:+ Dep.Task dep +:+ nl)));;
  when_ (bool_decide (0 < length (Task.Cmds task))%nat)
    (printf ("  Commands:" +:+ nl);;
     forM_ (Task.Cmds task) listCmd);;
  printf nl.

Definition flatTaskLister : M unit :=
  all ← Tasks_All;
  forM_ all (λ '(taskName, task), listTask taskName task).

(** ** The dependency tree from the start task (main.go, lines 134 to 143) *)

Definition dependencyTreeFrom (fuel : nat) (startTask : string) : M unit :=
  printf ("=== Complete Dependency Tree from '" +:+ startTask +:+ "' task ===" +:+ nl);;
  found ← Tasks_Get startTask;
  match found with
  | Some _ => showDependencyTree fuel startTask 0
  | None =>
      printf ("Task '" +:+ startTask +:+ "' not found" +:+ nl);;
      printf ("Available tasks:" +:+ nl);;
      all ← Tasks_All;
      forM_ all (λ '(taskName, _), printf ("  - " +:+ taskName +:+ nl))
  end.

(** ** [main] from the first line it prints (main.go, lines 72 to 143) *)

Section Main.
(** [graph.TopologicalSort] of the graph library: the sorted hashes, or
    the text of the error. *)
Variable TopologicalSort : TaskfileGraph.t → list string + string.

Definition main (fuel : nat) (startTask : string) : M unit :=
  printf ("=== Taskfile Graph Analysis ===" +:+ nl);;
  tf ← (λ w, Returned (mergedTaskfile w) w);
  printf ("Location: " +:+ Taskfile.Location tf +:+ nl);;
  printf ("Version: " +:+ Taskfile.Version tf +:+ nl);;
  printf nl;;
  printf ("=== Taskfile Inclusion Graph ===" +:+ nl);;
  g ← (λ w, Returned (taskfileGraph w) w);
  match TopologicalSort g with
  | inr err => panic ("Failed to sort graph: " +:+ err)
  | inl hashes =>
      inclusionGraphPrinter hashes;;
      printf nl;;
      printf ("=== Task Dependencies ===" +:+ nl);;
      _ ← buildTaskDependencyGraph;
      flatTaskLister;;
      dependencyTreeFrom fuel startTask
  end.
End Main.

(** ** What a program writes *)

(** The text a program appends to standard output, when it returns. *)
Definition output_of (m : M unit) (w : World) : option string :=
  match m (set_stdout w "") with
  | Returned _ w' => Some (stdout w')
  | _ => None
  end.

(** A printer only appends to standard output: it leaves the Taskfile and
    the graph alone, never panics, and what it appends does not depend on
    what was written before. *)
Definition Printer (m : M unit) : Prop :=
  ∀ w, m w = match output_of m w with
             | Some s => Returned tt (print_to w s)
             | None => OutOfFuel
             end.

Definition concat_strings (l : list string) : string := foldr String.append "" l.

(** The task names [showDependencyTree] recurses into, in order. *)
Definition call_names (task : Task.t) : list string :=
  filter (λ n, n ≠ "") (Cmd.Task <$> Task.Cmds task).

Definition children (task : Task.t) : list string :=
  (Dep.Task <$> Task.Deps task) ++ call_names task.

Definition tree_output (fuel : nat) (w : World) (taskName : string) (depth : Z)
  : option string :=
  output_of (showDependencyTree fuel taskName depth) w.

Fixpoint spaces (n : nat) : string :=
  match n with
  | O => ""
  | S n' => " " +:+ spaces n'
  end.

Definition desc_suffix (task : Task.t) : string :=
  if decide (Task.Desc task = "") then "" else " - " +:+ Task.Desc task.

(** The text written for one vertex of the inclusion graph. *)
Definition include_line (entry : string * Include.t) : string :=
  "     - " +:+ entry.1 +:+ ": " +:+ Include.Taskfile entry.2 +:+ nl.

Definition vertex_block (position : Z) (vertex : TaskfileVertex.t) : string :=
  pretty position +:+ ". Taskfile: " +:+ TaskfileVertex.URI vertex +:+ nl +:+
  match Taskfile.Includes (TaskfileVertex.Taskfile vertex) with
  | [] => ""
  | includes => "   Includes:" +:+ nl +:+ concat_strings (include_line <$> includes)
  end.

(** The text written for one task by the flat task lister. *)
Definition cmd_lines (cmd : Cmd.t) : string :=
  (if decide (Cmd.Cmd cmd = "") then "" else "    - cmd: " +:+ Cmd.Cmd cmd +:+ nl) +:+
  (if decide (Cmd.Task cmd = "") then "" else "    - task: " +:+ Cmd.Task cmd +:+ nl).

Definition task_block (entry : string * Task.t) : string :=
  "Task: " +:+ entry.1 +:+ desc_suffix entry.2 +:+ nl +:+
  match Task.Deps entry.2 with
  | [] => ""
  | deps => "  Dependencies:" +:+ nl
            +:+ concat_strings ((λ dep, "    - " +:+ Dep.Task dep +:+ nl) <$> deps)
  end +:+
  match Task.Cmds entry.2 with
  | [] => ""
  | cmds => "  Commands:" +:+ nl +:+ concat_strings (cmd_lines <$> cmds)
  end +:+
  nl.

(** Neither the Taskfile nor the graph differs after a run that ends. *)
Definition preserves {A} (m : M A) : Prop :=
  ∀ w, match m w with
       | Returned _ w' | Panic _ w' =>
           mergedTaskfile w' = mergedTaskfile w ∧ taskfileGraph w' = taskfileGraph w
       | OutOfFuel => True
       end.


(** The text [main] writes before the dependency tree section when the sort
    succeeds with [hashes]. *)
Definition report_text (w : World) (hashes : list string) : string :=
  ("=== Taskfile Graph Analysis ===" +:+ nl)
  +:+ ("Location: " +:+ Taskfile.Location (mergedTaskfile w) +:+ nl)
  +:+ ("Version: " +:+ Taskfile.Version (mergedTaskfile w) +:+ nl)
  +:+ nl
  +:+ ("=== Taskfile Inclusion Graph ===" +:+ nl)
  +:+ concat_strings
        (imap (λ i hash,
                 match TaskfileGraph.Vertex (taskfileGraph w) hash with
                 | Some vertex => vertex_block (Z.of_nat i + 1) vertex
                 | None => ""
                 end) hashes)
  +:+ nl
  +:+ ("=== Task Dependencies ===" +:+ nl)
  +:+ concat_strings (task_block <$> Tasks.All (Taskfile.Tasks (mergedTaskfile w))).

(** ** The reference graph of the tasks *)

(** [calls tf a b]: task [a] is defined and names [b] as a dependency or in
    a task call. *)
Definition calls (tf : Taskfile.t) (a b : string) : Prop :=
  ∃ task, Tasks.Get (Taskfile.Tasks tf) a = Some task ∧ b ∈ children task.

(** No task reachable from [start] reaches itself. *)
Definition acyclic_from (tf : Taskfile.t) (start : string) : Prop :=
  ∀ n, rtc (calls tf) start n → ¬ tc (calls tf) n n.

(** The commands loop, entry by entry: an entry with an empty task
    reference contributes nothing and uses no fuel. *)
Definition cmd_subtree (fuel : nat) (w : World) (depth : Z) (cmd : Cmd.t) : option string :=
  if decide (Cmd.Task cmd = "") then Some ""
  else tree_output fuel w (Cmd.Task cmd) depth.

(** ** Example documents *)

Module Demo.
Definition build : Task.t :=
  Task.Build "" [] [Cmd.Build "echo hi" ""].
Definition test : Task.t :=
  Task.Build "" [Dep.Build "build"] [].
Definition default : Task.t :=
  Task.Build "" [] [Cmd.Build "" "test"].

Definition lib_taskfile : Taskfile.t :=
  Taskfile.Build "./lib/Taskfile.yml" "3" [] [("build", build)].

Definition taskfile : Taskfile.t :=
  Taskfile.Build "./Taskfile.yml" "3"
    [("lib", Include.Build "./lib")]
    [("build", build); ("test", test); ("default", default)].

Definition root_vertex : TaskfileVertex.t :=
  TaskfileVertex.Build "./Taskfile.yml" taskfile.
Definition lib_vertex : TaskfileVertex.t :=
  TaskfileVertex.Build "./lib/Taskfile.yml" lib_taskfile.

Definition graph : TaskfileGraph.t :=
  TaskfileGraph.Build
    (<["./Taskfile.yml" := root_vertex]> (<["./lib/Taskfile.yml" := lib_vertex]> ∅))
    [("./Taskfile.yml", "./lib/Taskfile.yml")].

Definition world : World := mkWorld taskfile graph "".

(** Two tasks that depend on each other. *)
Definition ping : Task.t := Task.Build "" [Dep.Build "pong"] [].
Definition pong : Task.t := Task.Build "" [Dep.Build "ping"] [].
Definition looping_world : World :=
  mkWorld (Taskfile.Build "./Taskfile.yml" "3" [] [("ping", ping); ("pong", pong)])
          graph "".

(** Two Taskfiles that include each other. *)
Definition cyclic_graph : TaskfileGraph.t :=
  TaskfileGraph.Build
    (<["./Taskfile.yml" := root_vertex]> (<["./lib/Taskfile.yml" := lib_vertex]> ∅))
    [("./Taskfile.yml", "./lib/Taskfile.yml"); ("./lib/Taskfile.yml", "./Taskfile.yml")].
Definition cyclic_world : World := mkWorld taskfile cyclic_graph "".

(** A Taskfile that defines [default] only. *)
Definition only_default : World :=
  mkWorld (Taskfile.Build "./Taskfile.yml" "3" [] [("default", Task.Build "" [] [])])
          graph "".

(** A command entry with a literal command and a task call at once. *)
Definition both : Cmd.t := Cmd.Build "echo hi" "build".
End Demo.

(** * Proofs *)

(** ** Strings and worlds *)

Lemma append_nil_r (s : string) : s +:+ "" = s.
Proof.
  induction s as [|a s IH]; [done |].
  change (String a (s +:+ "") = String a s). by f_equal.
Qed.

Lemma append_assoc (s1 s2 s3 : string) : (s1 +:+ s2) +:+ s3 = s1 +:+ s2 +:+ s3.
Proof.
  induction s1 as [|a s1 IH]; [done |].
  change (String a ((s1 +:+ s2) +:+ s3) = String a (s1 +:+ s2 +:+ s3)). by f_equal.
Qed.

Lemma concat_strings_app (l k : list string) :
  concat_strings (l ++ k) = concat_strings l +:+ concat_strings k.
Proof.
  induction l as [|s l IH]; simpl; [done |].
  by rewrite IH, append_assoc.
Qed.

Lemma print_to_nil (w : World) : print_to w "" = w.
Proof. destruct w as [tf g out]. unfold print_to; simpl. by rewrite append_nil_r. Qed.

Lemma print_to_print_to (w : World) (s1 s2 : string) :
  print_to (print_to w s1) s2 = print_to w (s1 +:+ s2).
Proof. unfold print_to; simpl. by rewrite append_assoc. Qed.

Lemma spaces_add (n m : nat) : spaces (n + m) = spaces n +:+ spaces m.
Proof.
  induction n as [|n IH]; [done |].
  change (" " +:+ spaces (n + m) = (" " +:+ spaces n) +:+ spaces m).
  by rewrite IH.
Qed.

Lemma indent_of_spaces (depth : Z) : indent_of depth = spaces (2 * Z.to_nat depth).
Proof.
  unfold indent_of. induction (Z.to_nat depth) as [|n IH]; [done |].
  replace (2 * S n)%nat with (2 * n + 2)%nat by lia.
  rewrite spaces_add. simpl Nat.iter. by rewrite IH.
Qed.

Lemma add_int_small (d : Z) : 0 ≤ d < max_int → add_int d 1 = d + 1.
Proof.
  unfold add_int, wrap_int, max_int. intros Hd.
  rewrite Z.mod_small; lia.
Qed.

Lemma desc_suffix_when (task : Task.t) :
  (if nonempty (Task.Desc task) then Some (" - " +:+ Task.Desc task) else Some "")
  = Some (desc_suffix task).
Proof. unfold nonempty, desc_suffix. case_bool_decide; case_decide; done. Qed.

Lemma length_pos_cons {X} (l : list X) :
  bool_decide (0 < length l)%nat = match l with [] => false | _ => true end.
Proof.
  destruct l; [apply bool_decide_false | apply bool_decide_true]; simpl; lia.
Qed.

(** ** Printers compose *)

Lemma output_of_ret (w : World) : output_of (mret tt) w = Some "".
Proof. done. Qed.

Lemma Printer_ret : Printer (mret tt).
Proof. intros w. rewrite output_of_ret, print_to_nil. done. Qed.

Lemma output_of_printf (s : string) (w : World) : output_of (printf s) w = Some s.
Proof. done. Qed.

Lemma Printer_printf (s : string) : Printer (printf s).
Proof. intros w. by rewrite output_of_printf. Qed.

Lemma Printer_out_of_fuel : Printer out_of_fuel.
Proof. done. Qed.

Lemma output_of_seq (m k : M unit) (w : World) :
  Printer m → Printer k →
  output_of (m;; k) w =
    s1 ← output_of m w; s2 ← output_of k w; Some (s1 +:+ s2).
Proof.
  intros Hm Hk. unfold output_of at 1. unfold mbind at 1, M_bind.
  rewrite (Hm (set_stdout w "")).
  change (output_of m (set_stdout w "")) with (output_of m w).
  destruct (output_of m w) as [s1|]; simpl; [|done].
  rewrite (Hk (print_to (set_stdout w "") s1)).
  change (output_of k (print_to (set_stdout w "") s1)) with (output_of k w).
  by destruct (output_of k w) as [s2|].
Qed.

Lemma Printer_seq (m k : M unit) : Printer m → Printer k → Printer (m;; k).
Proof.
  intros Hm Hk w. rewrite output_of_seq by done.
  unfold mbind at 1, M_bind. rewrite (Hm w).
  destruct (output_of m w) as [s1|]; simpl; [|done].
  rewrite (Hk (print_to w s1)).
  change (output_of k (print_to w s1)) with (output_of k w).
  destruct (output_of k w) as [s2|]; simpl; [|done].
  by rewrite print_to_print_to.
Qed.

(** Reading the Taskfile or the graph changes nothing and prints nothing. *)
Lemma output_of_read {A} (f : Taskfile.t → TaskfileGraph.t → A) (k : A → M unit)
    (w : World) :
  output_of ((λ w, Returned (f (mergedTaskfile w) (taskfileGraph w)) w) ≫= k) w
  = output_of (k (f (mergedTaskfile w) (taskfileGraph w))) w.
Proof. done. Qed.

Lemma Printer_read {A} (f : Taskfile.t → TaskfileGraph.t → A) (k : A → M unit) :
  (∀ a, Printer (k a)) →
  Printer ((λ w, Returned (f (mergedTaskfile w) (taskfileGraph w)) w) ≫= k).
Proof.
  intros Hk w. rewrite output_of_read.
  unfold mbind, M_bind. apply Hk.
Qed.

Lemma output_of_when (b : bool) (m : M unit) (w : World) :
  output_of (when_ b m) w = if b then output_of m w else Some "".
Proof. by destruct b. Qed.

Lemma Printer_when (b : bool) (m : M unit) : Printer m → Printer (when_ b m).
Proof. destruct b; [done | intros _; apply Printer_ret]. Qed.

Lemma Printer_forM_ {X} (l : list X) (body : X → M unit) :
  (∀ x, x ∈ l → Printer (body x)) → Printer (forM_ l body).
Proof.
  induction l as [|x l IH]; intros Hb; simpl.
  - apply Printer_ret.
  - apply Printer_seq; [apply Hb; left | apply IH; intros y Hy; apply Hb; by right].
Qed.

Lemma output_of_forM_ {X} (l : list X) (body : X → M unit) (w : World) :
  (∀ x, x ∈ l → Printer (body x)) →
  output_of (forM_ l body) w
  = concat_strings <$> mapM (λ x, output_of (body x) w) l.
Proof.
  induction l as [|x l IH]; intros Hb; [done |].
  assert (∀ y, y ∈ l → Printer (body y)) as Hl by (intros y Hy; apply Hb; by right).
  simpl forM_. rewrite output_of_seq; [| apply Hb; left | by apply Printer_forM_].
  rewrite IH by done. simpl.
  destruct (output_of (body x) w) as [s|]; simpl; [|done].
  by destruct (mapM _ l).
Qed.

Lemma forM_ext {X} (l : list X) (body body' : X → M unit) :
  (∀ x, body x = body' x) → forM_ l body = forM_ l body'.
Proof. intros Hb. induction l as [|x l IH]; simpl; [done | by rewrite Hb, IH]. Qed.

Lemma Printer_forM_indexed {X} (start : nat) (l : list X) (body : nat → X → M unit) :
  (∀ i x, Printer (body i x)) → Printer (forM_indexed start l body).
Proof.
  intros Hb. revert start. induction l as [|x l IH]; intros start; simpl.
  - apply Printer_ret.
  - by apply Printer_seq.
Qed.

Lemma mapM_app {A B} (f : A → option B) (l k : list A) :
  mapM f (l ++ k) = xs ← mapM f l; ys ← mapM f k; Some (xs ++ ys).
Proof.
  induction l as [|x l IH]; simpl.
  - by destruct (mapM f k).
  - destruct (f x); simpl; [|done]. rewrite IH.
    destruct (mapM f l); simpl; [|done]. by destruct (mapM f k).
Qed.

(** ** The dependency tree renderer *)

Lemma Printer_showDependencyTree (fuel : nat) (taskName : string) (depth : Z) :
  Printer (showDependencyTree fuel taskName depth).
Proof.
  revert taskName depth. induction fuel as [|fuel IH]; intros taskName depth.
  - apply Printer_out_of_fuel.
  - simpl. apply (Printer_read (λ tf _, Tasks.Get (Taskfile.Tasks tf) taskName)).
    intros [task|]; [|apply Printer_printf].
    apply Printer_seq; [apply Printer_printf |].
    apply Printer_seq; [apply Printer_when, Printer_printf |].
    apply Printer_seq; [apply Printer_printf |].
    apply Printer_seq; apply Printer_forM_; intros x _; [apply IH |].
    apply Printer_when, IH.
Qed.

Lemma tree_output_0 (w : World) (taskName : string) (depth : Z) :
  tree_output 0 w taskName depth = None.
Proof. done. Qed.

(** A name the Taskfile does not define is a leaf. *)
Lemma tree_output_missing (fuel : nat) (w : World) (taskName : string) (depth : Z) :
  Tasks.Get (Taskfile.Tasks (mergedTaskfile w)) taskName = None →
  tree_output (S fuel) w taskName depth
  = Some (indent_of depth +:+ taskName +:+ " (not found)" +:+ nl).
Proof.
  intros Hget. unfold tree_output. simpl showDependencyTree.
  rewrite (output_of_read (λ tf _, Tasks.Get (Taskfile.Tasks tf) taskName)).
  by rewrite Hget.
Qed.

(** The loop over the commands recurses into the task calls only. *)
Lemma output_of_calls (fuel : nat) (w : World) (depth : Z) (cmds : list Cmd.t) :
  output_of (forM_ cmds (λ cmd,
      when_ (nonempty (Cmd.Task cmd)) (showDependencyTree fuel (Cmd.Task cmd) depth))) w
  = concat_strings <$>
      mapM (λ n, tree_output fuel w n depth) (filter (λ n, n ≠ "") (Cmd.Task <$> cmds)).
Proof.
  rewrite output_of_forM_
    by (intros x _; apply Printer_when, Printer_showDependencyTree).
  induction cmds as [|cmd cmds IH]; [done |].
  rewrite fmap_cons. simpl mapM. rewrite output_of_when.
  destruct (mapM (λ x, output_of (when_ _ _) w) cmds) as [outs|] eqn:Hrest;
    simpl in IH |- *.
  all: destruct (decide (Cmd.Task cmd = "")) as [He|Hne].
  all: unfold nonempty.
  all: [> rewrite filter_cons_False, bool_decide_false by (intros H; by apply H)
        | rewrite filter_cons_True, bool_decide_true by done
        | rewrite filter_cons_False, bool_decide_false by (intros H; by apply H)
        | rewrite filter_cons_True, bool_decide_true by done ].
  all: simpl; try rewrite <- IH; try done.
  all: fold (tree_output fuel w (Cmd.Task cmd) depth).
  all: destruct (tree_output fuel w (Cmd.Task cmd) depth) as [s|]; simpl; [|done].
  all: destruct (mapM _ (filter _ _)); simpl in *; congruence.
Qed.

(** One level of the tree: the line of the task, then the subtrees of its
    dependencies and of its task calls, one level deeper. *)
Lemma tree_output_present (fuel : nat) (w : World) (taskName : string)
    (task : Task.t) (depth : Z) :
  Tasks.Get (Taskfile.Tasks (mergedTaskfile w)) taskName = Some task →
  tree_output (S fuel) w taskName depth =
    outs ← mapM (λ n, tree_output fuel w n (add_int depth 1)) (children task);
    Some (indent_of depth +:+ taskName +:+ desc_suffix task +:+ nl
          +:+ concat_strings outs).
Proof.
  intros Hget. unfold tree_output at 1. simpl showDependencyTree.
  rewrite (output_of_read (λ tf _, Tasks.Get (Taskfile.Tasks tf) taskName)).
  rewrite Hget.
  assert (∀ n d, Printer (showDependencyTree fuel n d)) as HP
    by (intros; apply Printer_showDependencyTree).
  assert (Printer (forM_ (Task.Cmds task) (λ cmd,
            when_ (nonempty (Cmd.Task cmd))
              (showDependencyTree fuel (Cmd.Task cmd) (add_int depth 1))))) as HPc
    by (apply Printer_forM_; intros x _; apply Printer_when, HP).
  assert (Printer (forM_ (Task.Deps task) (λ dep,
            showDependencyTree fuel (Dep.Task dep) (add_int depth 1)))) as HPd
    by (apply Printer_forM_; intros x _; apply HP).
  rewrite output_of_seq;
    [| apply Printer_printf | repeat apply Printer_seq; auto using Printer_printf, Printer_when].
  rewrite output_of_seq;
    [| apply Printer_when, Printer_printf
     | repeat apply Printer_seq; auto using Printer_printf, Printer_when].
  rewrite output_of_seq;
    [| apply Printer_printf | repeat apply Printer_seq; auto using Printer_printf].
  rewrite output_of_seq by done.
  rewrite output_of_calls, output_of_forM_ by (intros x _; apply HP).
  rewrite output_of_when, !output_of_printf.
  unfold children, call_names. rewrite mapM_app.
  replace (mapM (λ x, output_of (showDependencyTree fuel (Dep.Task x) (add_int depth 1)) w)
             (Task.Deps task))
    with (mapM (λ n, tree_output fuel w n (add_int depth 1)) (Dep.Task <$> Task.Deps task)).
  2:{ generalize (Task.Deps task). intros l. induction l as [|x l IH]; [done |].
      rewrite fmap_cons. simpl. by rewrite IH. }
  rewrite desc_suffix_when.
  simpl.
  destruct (mapM _ (Dep.Task <$> Task.Deps task)) as [ds|]; simpl; [|done].
  destruct (mapM _ (filter _ _)) as [cs|]; simpl; [|done].
  by rewrite concat_strings_app, !append_assoc.
Qed.

Lemma showDependencyTree_run (fuel : nat) (taskName : string) (depth : Z) (w : World) :
  showDependencyTree fuel taskName depth w =
    match tree_output fuel w taskName depth with
    | Some s => Returned tt (print_to w s)
    | None => OutOfFuel
    end.
Proof. apply Printer_showDependencyTree. Qed.

(** [tree_output] is the text of the runs that return. *)
Lemma tree_output_spec (fuel : nat) (w : World) (taskName : string) (depth : Z)
    (s : string) :
  tree_output fuel w taskName depth = Some s
  ↔ showDependencyTree fuel taskName depth w = Returned tt (print_to w s).
Proof.
  rewrite showDependencyTree_run. split; [by intros -> |].
  destruct (tree_output fuel w taskName depth) as [s'|]; [|done].
  intros Hrun. injection Hrun as Hout. f_equal. by eapply (inj (String.app _)).
Qed.

(** More fuel never changes what has been rendered. *)
Lemma tree_output_S (fuel : nat) (w : World) (taskName : string) (depth : Z) (s : string) :
  tree_output fuel w taskName depth = Some s →
  tree_output (S fuel) w taskName depth = Some s.
Proof.
  revert taskName depth s. induction fuel as [|fuel IH]; intros taskName depth s Hs.
  - by rewrite tree_output_0 in Hs.
  - destruct (Tasks.Get (Taskfile.Tasks (mergedTaskfile w)) taskName) as [task|] eqn:Hget.
    + rewrite (tree_output_present _ _ _ task) in Hs by done.
      rewrite (tree_output_present _ _ _ task) by done.
      destruct (mapM _ (children task)) as [outs|] eqn:Houts; [|done].
      apply mapM_Some in Houts.
      erewrite (proj2 (mapM_Some _ _ outs)); [done |].
      eapply Forall2_impl; [exact Houts |]. intros n o Hn. by apply IH.
    + rewrite tree_output_missing in Hs by done.
      by rewrite tree_output_missing.
Qed.

Lemma tree_output_le (fuel fuel' : nat) (w : World) (taskName : string) (depth : Z)
    (s : string) :
  (fuel ≤ fuel')%nat →
  tree_output fuel w taskName depth = Some s →
  tree_output fuel' w taskName depth = Some s.
Proof. induction 1; [done |]. intros. by apply tree_output_S, IHle. Qed.

(** ** The reference graph of the tasks *)

Lemma Get_Some_keys (ts : Tasks.t) (key : string) (task : Task.t) :
  Tasks.Get ts key = Some task → key ∈ Tasks.keys ts.
Proof.
  unfold Tasks.keys. induction ts as [|[k v] ts IH]; [done |]. simpl.
  case_decide; intros; simplify_eq; [left | right; by apply IH].
Qed.

(** While the names on the call stack are pairwise distinct, the stack is
    no deeper than the Taskfile has tasks: fuel beyond that is never used. *)
Lemma tree_output_terminates_aux (w : World) (fuel : nat) :
  let tf := mergedTaskfile w in
  ∀ (taskName : string) (depth : Z) (stack : list string),
    NoDup stack →
    (∀ a, a ∈ stack → a ∈ Tasks.keys (Taskfile.Tasks tf)) →
    (∀ a, a ∈ stack → tc (calls tf) a taskName) →
    acyclic_from tf taskName →
    (length (Tasks.keys (Taskfile.Tasks tf)) < fuel + length stack)%nat →
    is_Some (tree_output fuel w taskName depth).
Proof.
  intros tf. induction fuel as [|fuel IH];
    intros taskName depth stack Hnd Hkeys Hreach Hacyc Hlen.
  - apply NoDup_submseteq, submseteq_length in Hkeys; [|done]. simpl in Hlen. lia.
  - destruct (Tasks.Get (Taskfile.Tasks tf) taskName) as [task|] eqn:Hget.
    2:{ rewrite tree_output_missing by done. eauto. }
    rewrite (tree_output_present _ _ _ task) by done.
    assert (is_Some (mapM (λ n, tree_output fuel w n (add_int depth 1)) (children task)))
      as [outs ->]; [|simpl; eauto].
    apply mapM_is_Some_2, Forall_forall. intros c Hc. simpl.
    assert (calls tf taskName c) as Hcall by (exists task; done).
    apply (IH c _ (taskName :: stack)).
    + apply NoDup_cons. split; [|done].
      intros Hin. apply (Hacyc taskName); [done | by apply Hreach].
    + intros a [->|Ha]%elem_of_cons; [by eapply Get_Some_keys | by apply Hkeys].
    + intros a [->|Ha]%elem_of_cons; [by apply tc_once |].
      eapply tc_r; [by apply Hreach | done].
    + intros n Hn. apply Hacyc. by eapply rtc_l.
    + simpl. lia.
Qed.

Lemma tree_output_terminates (w : World) (start : string) (depth : Z) :
  acyclic_from (mergedTaskfile w) start →
  is_Some (tree_output
             (S (length (Tasks.keys (Taskfile.Tasks (mergedTaskfile w))))) w start depth).
Proof.
  intros Hacyc. apply (tree_output_terminates_aux w _ start depth []); try done.
  - apply NoDup_nil_2.
  - intros a Ha. by apply elem_of_nil in Ha.
  - intros a Ha. by apply elem_of_nil in Ha.
  - simpl. lia.
Qed.

(** A task that reaches a cycle is never rendered, whatever the fuel. *)
Lemma tree_output_diverges (w : World) (fuel : nat) :
  ∀ (start : string) (depth : Z) (n : string),
    rtc (calls (mergedTaskfile w)) start n →
    tc (calls (mergedTaskfile w)) n n →
    tree_output fuel w start depth = None.
Proof.
  induction fuel as [|fuel IH]; intros start depth n Hreach Hcycle; [done |].
  assert (∃ c, calls (mergedTaskfile w) start c ∧ rtc (calls (mergedTaskfile w)) c n)
    as (c & Hcall & Hcn).
  { inversion Hreach as [|? c ? Hcall Hcn]; simplify_eq; [|by eauto].
    inversion Hcycle as [? ? Hcall|? c ? Hcall Hcn]; simplify_eq.
    - exists n. split; [done | apply rtc_refl].
    - exists c. split; [done | by apply tc_rtc]. }
  destruct Hcall as (task & Hget & Hc).
  rewrite (tree_output_present _ _ _ task) by done.
  rewrite (proj2 (mapM_None _ _)); [done |].
  apply Exists_exists. exists c. split; [done |]. by eapply IH.
Qed.

(** ** The inclusion graph printer *)

Lemma Printer_printf_loop {X} (l : list X) (line : X → string) :
  Printer (forM_ l (λ x, printf (line x))).
Proof. apply Printer_forM_. intros x _. apply Printer_printf. Qed.

Lemma output_of_forM_lines {X} (l : list X) (body : X → M unit) (line : X → string)
    (w : World) :
  (∀ x, Printer (body x)) →
  (∀ x, output_of (body x) w = Some (line x)) →
  output_of (forM_ l body) w = Some (concat_strings (line <$> l)).
Proof.
  intros HP Hline. rewrite output_of_forM_ by (intros x _; apply HP).
  induction l as [|x l IH]; [done |].
  rewrite fmap_cons. simpl mapM. rewrite Hline. simpl.
  destruct (mapM _ l) as [outs|]; simpl in *; [|done].
  injection IH as IH. by rewrite IH.
Qed.

Lemma output_of_printf_loop {X} (l : list X) (line : X → string) (w : World) :
  output_of (forM_ l (λ x, printf (line x))) w = Some (concat_strings (line <$> l)).
Proof. apply output_of_forM_lines; [intros; apply Printer_printf | done]. Qed.

Lemma Printer_printIncludes (vertex : TaskfileVertex.t) : Printer (printIncludes vertex).
Proof.
  unfold printIncludes. apply Printer_when, Printer_seq; [apply Printer_printf |].
  apply Printer_forM_. intros [namespace include] _. apply Printer_printf.
Qed.

Lemma Printer_vertex_body (i : nat) (hash : string) :
  Printer (found ← Graph_Vertex hash;
           match found with
           | None => mret tt
           | Some vertex =>
               printf (pretty (Z.of_nat i + 1) +:+ ". Taskfile: "
                       +:+ TaskfileVertex.URI vertex +:+ nl);;
               printIncludes vertex
           end).
Proof.
  apply (Printer_read (λ _ g, TaskfileGraph.Vertex g hash)).
  intros [vertex|]; [|apply Printer_ret].
  apply Printer_seq; [apply Printer_printf | apply Printer_printIncludes].
Qed.

Lemma Printer_inclusionGraphPrinter (hashes : list string) :
  Printer (inclusionGraphPrinter hashes).
Proof. apply Printer_forM_indexed. intros i hash. apply Printer_vertex_body. Qed.

Lemma output_of_vertex_body (i : nat) (hash : string) (vertex : TaskfileVertex.t)
    (w : World) :
  TaskfileGraph.vertices (taskfileGraph w) !! hash = Some vertex →
  output_of (found ← Graph_Vertex hash;
             match found with
             | None => mret tt
             | Some vertex =>
                 printf (pretty (Z.of_nat i + 1) +:+ ". Taskfile: "
                         +:+ TaskfileVertex.URI vertex +:+ nl);;
                 printIncludes vertex
             end) w
  = Some (vertex_block (Z.of_nat i + 1) vertex).
Proof.
  intros Hv. rewrite (output_of_read (λ _ g, TaskfileGraph.Vertex g hash)).
  unfold TaskfileGraph.Vertex. rewrite Hv.
  rewrite output_of_seq by (apply Printer_printf || apply Printer_printIncludes).
  rewrite output_of_printf. unfold printIncludes, vertex_block, Includes.Len, Includes.All.
  rewrite output_of_when.
  destruct (Taskfile.Includes (TaskfileVertex.Taskfile vertex)) as [|inc incs] eqn:Hincs.
  - simpl. by rewrite !append_assoc.
  - rewrite bool_decide_true by (simpl; lia).
    rewrite output_of_seq
      by (apply Printer_printf || (apply Printer_forM_; intros [? ?] _; apply Printer_printf)).
    rewrite output_of_printf.
    replace (forM_ (inc :: incs) (λ '(namespace, include),
               printf ("     - " +:+ namespace +:+ ": " +:+ Include.Taskfile include +:+ nl)))
      with (forM_ (inc :: incs) (λ entry, printf (include_line entry))).
    2:{ apply forM_ext. by intros [? ?]. }
    rewrite output_of_printf_loop. simpl. by rewrite !append_assoc.
Qed.



(** ** Topological orders *)

Lemma topological_order_path (g : TaskfileGraph.t) (hashes : list string) (u v : string) :
  TaskfileGraph.topological_order g hashes →
  tc (TaskfileGraph.edge g) u v →
  ∃ i j : nat, (i < j)%nat ∧ hashes !! i = Some u ∧ hashes !! j = Some v.
Proof.
  intros (Hnd & _ & Hedges). induction 1 as [u v Huv|u c v Huc _ IH].
  - by apply Hedges.
  - destruct (Hedges _ _ Huc) as (i & j & Hij & Hi & Hj).
    destruct IH as (j' & k & Hjk & Hj' & Hk).
    assert (j = j') as -> by (by eapply NoDup_lookup).
    exists i, k. split; [lia | done].
Qed.

(** A graph with a cycle has no topological order. *)
Lemma topological_order_acyclic (g : TaskfileGraph.t) (hashes : list string) :
  TaskfileGraph.topological_order g hashes → ¬ TaskfileGraph.cyclic g.
Proof.
  intros Hto [v Hv].
  destruct (topological_order_path _ _ _ _ Hto Hv) as (i & j & Hij & Hi & Hj).
  destruct Hto as (Hnd & _).
  assert (i = j) by (by eapply NoDup_lookup). lia.
Qed.


(** ** The flat task lister *)

Lemma Printer_listCmd (cmd : Cmd.t) : Printer (listCmd cmd).
Proof. apply Printer_seq; apply Printer_when, Printer_printf. Qed.

Lemma output_of_listCmd (cmd : Cmd.t) (w : World) :
  output_of (listCmd cmd) w = Some (cmd_lines cmd).
Proof.
  unfold listCmd. rewrite output_of_seq by apply Printer_when, Printer_printf.
  rewrite !output_of_when, !output_of_printf. unfold nonempty, cmd_lines.
  do 2 (case_bool_decide; case_decide; try done).
Qed.

Lemma Printer_listTask (taskName : string) (task : Task.t) :
  Printer (listTask taskName task).
Proof.
  unfold listTask.
  repeat (apply Printer_seq || apply Printer_when || apply Printer_printf
          || apply Printer_printf_loop).
  apply Printer_forM_. intros cmd _. apply Printer_listCmd.
Qed.

Lemma output_of_listTask (taskName : string) (task : Task.t) (w : World) :
  output_of (listTask taskName task) w = Some (task_block (taskName, task)).
Proof.
  assert (Printer (forM_ (Task.Cmds task) listCmd)) as HPc
    by (apply Printer_forM_; intros cmd _; apply Printer_listCmd).
  unfold listTask.
  repeat (rewrite output_of_seq;
    [| repeat (apply Printer_seq || apply Printer_when || apply Printer_printf
               || apply Printer_printf_loop || apply HPc) ..]).
  rewrite !output_of_when.
  assert (output_of (forM_ (Task.Cmds task) listCmd) w
          = Some (concat_strings (cmd_lines <$> Task.Cmds task))) as Hcmds.
  { apply output_of_forM_lines; [apply Printer_listCmd | intros; apply output_of_listCmd]. }
  repeat (rewrite output_of_seq;
    [| repeat (apply Printer_seq || apply Printer_when || apply Printer_printf
               || apply Printer_printf_loop || apply HPc) ..]).
  rewrite Hcmds, output_of_printf_loop, !output_of_printf.
  rewrite desc_suffix_when, !length_pos_cons.
  unfold task_block. simpl fst. simpl snd.
  destruct (Task.Deps task) as [|dep deps]; destruct (Task.Cmds task) as [|cmd cmds];
    simpl; by rewrite ?append_assoc, ?append_nil_r.
Qed.

Lemma Printer_flatTaskLister : Printer flatTaskLister.
Proof.
  apply (Printer_read (λ tf _, Tasks.All (Taskfile.Tasks tf))).
  intros all. apply Printer_forM_. intros [taskName task] _. apply Printer_listTask.
Qed.

Lemma output_of_flatTaskLister (w : World) :
  output_of flatTaskLister w
  = Some (concat_strings
            (task_block <$> Tasks.All (Taskfile.Tasks (mergedTaskfile w)))).
Proof.
  unfold flatTaskLister.
  rewrite (output_of_read (λ tf _, Tasks.All (Taskfile.Tasks tf))).
  apply output_of_forM_lines.
  - intros [taskName task]. apply Printer_listTask.
  - intros [taskName task]. apply output_of_listTask.
Qed.

Lemma Printer_preserves (m : M unit) : Printer m → preserves m.
Proof. intros Hm w. rewrite (Hm w). by destruct (output_of m w). Qed.

Lemma preserves_buildTaskDependencyGraph : preserves buildTaskDependencyGraph.
Proof. intros w. by cbv [buildTaskDependencyGraph Tasks_All mbind M_bind mret M_ret]. Qed.

Lemma call_names_nil (task : Task.t) :
  Forall (λ cmd, Cmd.Task cmd = "") (Task.Cmds task) → call_names task = [].
Proof.
  unfold call_names. induction 1 as [|cmd cmds Hcmd _ IH]; [done |].
  rewrite fmap_cons, filter_cons_False; [done | by intros H; apply H].
Qed.

Lemma cmd_subtree_empty (fuel : nat) (w : World) (depth : Z) (cmd : Cmd.t) :
  Cmd.Task cmd = "" → cmd_subtree fuel w depth cmd = Some "".
Proof. intros He. unfold cmd_subtree. by rewrite decide_True. Qed.

Lemma cmd_subtree_call (fuel : nat) (w : World) (depth : Z) (cmd : Cmd.t) :
  Cmd.Task cmd ≠ "" →
  cmd_subtree fuel w depth cmd = tree_output fuel w (Cmd.Task cmd) depth.
Proof. intros He. unfold cmd_subtree. by rewrite decide_False. Qed.

Lemma tree_output_by_entry (fuel : nat) (w : World) (taskName : string)
    (task : Task.t) (depth : Z) :
  Tasks.Get (Taskfile.Tasks (mergedTaskfile w)) taskName = Some task →
  tree_output (S fuel) w taskName depth =
    ds ← mapM (λ dep, tree_output fuel w (Dep.Task dep) (add_int depth 1)) (Task.Deps task);
    cs ← mapM (cmd_subtree fuel w (add_int depth 1)) (Task.Cmds task);
    Some (indent_of depth +:+ taskName +:+ desc_suffix task +:+ nl
          +:+ concat_strings ds +:+ concat_strings cs).
Proof.
  intros Hget. rewrite (tree_output_present _ _ _ task) by done.
  unfold children, call_names. rewrite mapM_app.
  assert (mapM (λ n, tree_output fuel w n (add_int depth 1)) (Dep.Task <$> Task.Deps task)
          = mapM (λ dep, tree_output fuel w (Dep.Task dep) (add_int depth 1))
              (Task.Deps task)) as ->.
  { induction (Task.Deps task) as [|x l IH]; [done |].
    rewrite fmap_cons. simpl. by rewrite IH. }
  destruct (mapM _ (Task.Deps task)) as [ds|]; simpl; [|done].
  assert (concat_strings <$>
            mapM (λ n, tree_output fuel w n (add_int depth 1))
              (filter (λ n, n ≠ "") (Cmd.Task <$> Task.Cmds task))
          = concat_strings <$>
              mapM (cmd_subtree fuel w (add_int depth 1)) (Task.Cmds task)) as Hcs.
  { induction (Task.Cmds task) as [|cmd cmds IH]; [done |].
    rewrite fmap_cons. simpl mapM at 2.
    destruct (decide (Cmd.Task cmd = "")) as [He|He].
    - rewrite filter_cons_False by (by intros H; apply H).
      rewrite cmd_subtree_empty by done. simpl.
      destruct (mapM (cmd_subtree _ _ _) cmds); simpl in *; by rewrite IH.
    - rewrite filter_cons_True by done.
      rewrite cmd_subtree_call by done. simpl.
      destruct (tree_output fuel w (Cmd.Task cmd) (add_int depth 1)); simpl; [|done].
      destruct (mapM _ (filter _ _)), (mapM (cmd_subtree _ _ _) cmds);
        simpl in *; congruence. }
  destruct (mapM _ (filter _ _)) as [cs|], (mapM (cmd_subtree _ _ _) (Task.Cmds task))
    as [cs'|]; simpl in *; try done.
  injection Hcs as Hcs. by rewrite concat_strings_app, Hcs.
Qed.

(** ** The printers on the example documents *)

Example demo_tree :
  showDependencyTree 3 "default" 0 Demo.world
  = Returned tt (print_to Demo.world
      ("default" +:+ nl +:+ "  test" +:+ nl +:+ "    build" +:+ nl)).
Proof. vm_compute. reflexivity. Qed.

Example demo_tree_short_of_fuel :
  showDependencyTree 2 "default" 0 Demo.world = OutOfFuel.
Proof. vm_compute. reflexivity. Qed.

Example demo_lister :
  output_of flatTaskLister Demo.only_default = Some ("Task: default" +:+ nl +:+ nl).
Proof. vm_compute. reflexivity. Qed.

Example demo_graph_printer :
  output_of (inclusionGraphPrinter ["./Taskfile.yml"; "./lib/Taskfile.yml"]) Demo.world
  = Some ("1. Taskfile: ./Taskfile.yml" +:+ nl +:+ "   Includes:" +:+ nl
          +:+ "     - lib: ./lib" +:+ nl +:+ "2. Taskfile: ./lib/Taskfile.yml" +:+ nl).
Proof. vm_compute. reflexivity. Qed.

(** * The claims *)

(** C1. For a task name the document defines, rendering at depth [d] writes
    one line made of [2*d] spaces, the name and, exactly when the
    description is not empty, [" - "] and the description; the rest of the
    text is what the renderer writes at depth [d+1] for each explicit
    dependency in declared order and then for each command entry that calls
    a task, in declared order.  If one of these recursive calls does not
    return, neither does this one. *)
Theorem showDependencyTree_line_then_children (w : World) (fuel : nat)
    (taskName : string) (task : Task.t) (d : Z) :
  Tasks.Get (Taskfile.Tasks (mergedTaskfile w)) taskName = Some task →
  0 ≤ d < max_int →
  showDependencyTree (S fuel) taskName d w =
    match mapM (λ n, tree_output fuel w n (d + 1))
               ((Dep.Task <$> Task.Deps task)
                ++ filter (λ n, n ≠ "") (Cmd.Task <$> Task.Cmds task)) with
    | Some subtrees =>
        Returned tt (print_to w
          (spaces (Z.to_nat (2 * d)) +:+ taskName
           +:+ (if decide (Task.Desc task = "") then "" else " - " +:+ Task.Desc task)
           +:+ nl +:+ concat_strings subtrees))
    | None => OutOfFuel
    end.
Proof.
  intros Hget Hd. rewrite showDependencyTree_run.
  rewrite (tree_output_present _ _ _ task) by done.
  rewrite add_int_small, indent_of_spaces by done.
  replace (2 * Z.to_nat d)%nat with (Z.to_nat (2 * d)) by lia.
  fold (children task). by destruct (mapM _ (children task)).
Qed.

Lemma showDependencyTree_line_then_children_witness :
  showDependencyTree 2 "test" 0 Demo.world
  = Returned tt (print_to Demo.world ("test" +:+ nl +:+ "  build" +:+ nl)).
Proof.
  apply (showDependencyTree_line_then_children Demo.world 1 "test" Demo.test 0).
  - reflexivity.
  - unfold max_int. lia.
Defined.

(** C2. When task [A] has [B] as its only dependency, [B] has [C] as its
    only dependency, [C] has none, none of the three calls a task from its
    commands and none has a description, rendering from [A] writes three
    lines: [A], then [B] after two spaces, then [C] after four spaces. *)
Theorem showDependencyTree_chain (w : World) (fuel : nat) (A B C : string)
    (ta tb tc : Task.t) :
  let tasks := Taskfile.Tasks (mergedTaskfile w) in
  Tasks.Get tasks A = Some ta →
  Tasks.Get tasks B = Some tb →
  Tasks.Get tasks C = Some tc →
  Dep.Task <$> Task.Deps ta = [B] →
  Dep.Task <$> Task.Deps tb = [C] →
  Task.Deps tc = [] →
  Forall (λ cmd, Cmd.Task cmd = "") (Task.Cmds ta) →
  Forall (λ cmd, Cmd.Task cmd = "") (Task.Cmds tb) →
  Forall (λ cmd, Cmd.Task cmd = "") (Task.Cmds tc) →
  Task.Desc ta = "" → Task.Desc tb = "" → Task.Desc tc = "" →
  (3 ≤ fuel)%nat →
  showDependencyTree fuel A 0 w
  = Returned tt (print_to w (A +:+ nl +:+ "  " +:+ B +:+ nl +:+ "    " +:+ C +:+ nl)).
Proof.
  intros tasks HA HB HC HdA HdB HdC HcA HcB HcC HsA HsB HsC Hfuel.
  rewrite showDependencyTree_run.
  assert (tree_output 3 w A 0
          = Some (A +:+ nl +:+ "  " +:+ B +:+ nl +:+ "    " +:+ C +:+ nl)) as Hout.
  { rewrite (tree_output_present _ _ _ ta) by done.
    unfold children. rewrite HdA, call_names_nil by done. simpl mapM.
    rewrite (tree_output_present _ _ _ tb) by done.
    unfold children. rewrite HdB, call_names_nil by done. simpl mapM.
    rewrite (tree_output_present _ _ _ tc) by done.
    unfold children. rewrite HdC, call_names_nil by done. simpl.
    unfold desc_suffix. rewrite HsA, HsB, HsC. simpl.
    change (indent_of 0) with "".
    change (indent_of (add_int 0 1)) with "  ".
    change (indent_of (add_int (add_int 0 1) 1)) with "    ".
    rewrite !append_nil_r, ?append_assoc. reflexivity. }
  by rewrite (tree_output_le 3 fuel _ _ _ _ Hfuel Hout).
Qed.

Lemma showDependencyTree_chain_witness :
  showDependencyTree 3 "a" 0
    (mkWorld (Taskfile.Build "" "3" []
                [("a", Task.Build "" [Dep.Build "b"] []);
                 ("b", Task.Build "" [Dep.Build "c"] [Cmd.Build "echo b" ""]);
                 ("c", Task.Build "" [] [])])
             Demo.graph "log: ")
  = Returned tt
      (print_to
         (mkWorld (Taskfile.Build "" "3" []
                     [("a", Task.Build "" [Dep.Build "b"] []);
                      ("b", Task.Build "" [Dep.Build "c"] [Cmd.Build "echo b" ""]);
                      ("c", Task.Build "" [] [])])
                  Demo.graph "log: ")
         ("a" +:+ nl +:+ "  " +:+ "b" +:+ nl +:+ "    " +:+ "c" +:+ nl)).
Proof.
  apply (showDependencyTree_chain _ 3 "a" "b" "c"
           (Task.Build "" [Dep.Build "b"] [])
           (Task.Build "" [Dep.Build "c"] [Cmd.Build "echo b" ""])
           (Task.Build "" [] []));
    try reflexivity; try lia; repeat constructor.
Defined.

(** C3. For a name the document does not define, the renderer at depth [d]
    writes the single line of [2*d] spaces, the name and [" (not found)"],
    and returns without a recursive call (one unit of fuel is enough).  The
    caller goes on with the siblings: when the missing name is among the
    children of a task, the subtrees of the children after it follow its
    line. *)
Theorem showDependencyTree_not_found (w : World) (fuel : nat) (taskName : string) (d : Z) :
  Tasks.Get (Taskfile.Tasks (mergedTaskfile w)) taskName = None →
  0 ≤ d →
  showDependencyTree 1 taskName d w
  = Returned tt (print_to w
      (spaces (Z.to_nat (2 * d)) +:+ taskName +:+ " (not found)" +:+ nl))
  ∧ showDependencyTree (S fuel) taskName d w = showDependencyTree 1 taskName d w
  ∧ ∀ (parent : string) (ptask : Task.t) (before after : list string)
      (outs_before outs_after : list string),
      Tasks.Get (Taskfile.Tasks (mergedTaskfile w)) parent = Some ptask →
      (Dep.Task <$> Task.Deps ptask)
        ++ filter (λ n, n ≠ "") (Cmd.Task <$> Task.Cmds ptask)
        = before ++ taskName :: after →
      0 < d ≤ max_int →
      mapM (λ n, tree_output (S fuel) w n d) before = Some outs_before →
      mapM (λ n, tree_output (S fuel) w n d) after = Some outs_after →
      showDependencyTree (S (S fuel)) parent (d - 1) w
      = Returned tt (print_to w
          (spaces (Z.to_nat (2 * (d - 1))) +:+ parent
           +:+ (if decide (Task.Desc ptask = "") then "" else " - " +:+ Task.Desc ptask)
           +:+ nl
           +:+ concat_strings outs_before
           +:+ (spaces (Z.to_nat (2 * d)) +:+ taskName +:+ " (not found)" +:+ nl)
           +:+ concat_strings outs_after)).
Proof.
  intros Hget Hd.
  assert (∀ k, tree_output (S k) w taskName d
               = Some (spaces (Z.to_nat (2 * d)) +:+ taskName +:+ " (not found)" +:+ nl))
    as Hleaf.
  { intros k. rewrite tree_output_missing, indent_of_spaces by done.
    by replace (2 * Z.to_nat d)%nat with (Z.to_nat (2 * d)) by lia. }
  split; [| split].
  - by rewrite showDependencyTree_run, Hleaf.
  - by rewrite !showDependencyTree_run, !Hleaf.
  - intros parent ptask before after outs_before outs_after Hparent Hchildren Hd'
      Hbefore Hafter.
    rewrite showDependencyTree_run, (tree_output_present _ _ _ ptask) by done.
    rewrite add_int_small by (unfold max_int in *; lia).
    replace (d - 1 + 1) with d by lia.
    unfold children, call_names. rewrite Hchildren, mapM_app, Hbefore. simpl.
    rewrite Hleaf, Hafter. simpl.
    rewrite indent_of_spaces.
    replace (2 * Z.to_nat (d - 1))%nat with (Z.to_nat (2 * (d - 1))) by lia.
    by rewrite concat_strings_app.
Qed.

Lemma showDependencyTree_not_found_witness :
  showDependencyTree 1 "deploy" 1 Demo.world
  = Returned tt (print_to Demo.world ("  deploy (not found)" +:+ nl)).
Proof.
  apply (showDependencyTree_not_found Demo.world 0 "deploy" 1).
  - reflexivity.
  - lia.
Defined.

(** C4. When the requested start task is not in the document, the tree
    renderer is not called (no fuel is needed): after the banner, the program
    writes the not-found message and the line [Available tasks:], then one
    line ["  - <name>"] per task of the document in iteration order.  With a
    document that defines [default] only, the listing is the single line
    ["  - default"]. *)
Theorem dependencyTreeFrom_missing_start (w : World) (fuel : nat) (startTask : string) :
  let tasks := Taskfile.Tasks (mergedTaskfile w) in
  Tasks.Get tasks startTask = None →
  dependencyTreeFrom fuel startTask w
  = Returned tt (print_to w
      (("=== Complete Dependency Tree from '" +:+ startTask +:+ "' task ===" +:+ nl)
       +:+ ("Task '" +:+ startTask +:+ "' not found" +:+ nl)
       +:+ ("Available tasks:" +:+ nl)
       +:+ concat_strings ((λ taskName, "  - " +:+ taskName +:+ nl) <$> Tasks.keys tasks)))
  ∧ dependencyTreeFrom 0 startTask w = dependencyTreeFrom fuel startTask w
  ∧ (Tasks.keys tasks = ["default"] →
     concat_strings ((λ taskName, "  - " +:+ taskName +:+ nl) <$> Tasks.keys tasks)
     = "  - default" +:+ nl).
Proof.
  intros tasks Hget.
  assert (∀ k, dependencyTreeFrom k startTask w
    = Returned tt (print_to w
      (("=== Complete Dependency Tree from '" +:+ startTask +:+ "' task ===" +:+ nl)
       +:+ ("Task '" +:+ startTask +:+ "' not found" +:+ nl)
       +:+ ("Available tasks:" +:+ nl)
       +:+ concat_strings ((λ taskName, "  - " +:+ taskName +:+ nl) <$> Tasks.keys tasks))))
    as Hrun.
  { intros k. unfold dependencyTreeFrom.
    cbv [mbind M_bind printf Tasks_Get Tasks_All]. cbn [mergedTaskfile print_to].
    fold tasks. rewrite Hget.
    rewrite (forM_ext _ _ (λ entry, printf ("  - " +:+ entry.1 +:+ nl)))
      by (by intros [? ?]).
    rewrite (Printer_printf_loop _ (λ entry : string * Task.t, "  - " +:+ entry.1 +:+ nl)).
    rewrite output_of_printf_loop. rewrite !print_to_print_to.
    unfold Tasks.keys, Tasks.All. by rewrite <- list_fmap_compose. }
  split; [apply Hrun | split; [by rewrite !Hrun |]].
  by intros ->.
Qed.

Lemma dependencyTreeFrom_missing_start_witness :
  dependencyTreeFrom 0 "nonexistent" Demo.only_default
  = Returned tt (print_to Demo.only_default
      (("=== Complete Dependency Tree from 'nonexistent' task ===" +:+ nl)
       +:+ ("Task 'nonexistent' not found" +:+ nl)
       +:+ ("Available tasks:" +:+ nl)
       +:+ ("  - default" +:+ nl))).
Proof.
  apply (dependencyTreeFrom_missing_start Demo.only_default 0 "nonexistent").
  reflexivity.
Defined.




(** C6. When the inclusion graph has a cycle, a topological sort that only
    ever returns topological orders must fail, and [main] then panics with
    the sort's error: standard output holds the report header and the
    banner of the inclusion graph, written before the sort, and nothing
    after them; no vertex, task or tree is printed. *)
Theorem main_cycle_is_fatal (TopologicalSort : TaskfileGraph.t → list string + string)
    (w : World) (fuel : nat) (startTask : string) :
  let g := taskfileGraph w in
  let tf := mergedTaskfile w in
  TaskfileGraph.cyclic g →
  (∀ hashes, TopologicalSort g = inl hashes → TaskfileGraph.topological_order g hashes) →
  ∃ err,
    TopologicalSort g = inr err ∧
    main TopologicalSort fuel startTask w
    = Panic ("Failed to sort graph: " +:+ err)
        (print_to w
           (("=== Taskfile Graph Analysis ===" +:+ nl)
            +:+ ("Location: " +:+ Taskfile.Location tf +:+ nl)
            +:+ ("Version: " +:+ Taskfile.Version tf +:+ nl)
            +:+ nl
            +:+ ("=== Taskfile Inclusion Graph ===" +:+ nl))).
Proof.
  intros g tf Hcyc Hsound.
  destruct (TopologicalSort g) as [hashes|err] eqn:Hsort.
  { exfalso. eapply topological_order_acyclic; [by apply Hsound | done]. }
  exists err. split; [done |].
  unfold main. cbv [mbind M_bind printf panic]. cbn [taskfileGraph mergedTaskfile print_to].
  fold g. rewrite Hsort. f_equal.
  unfold print_to. cbn [taskfileGraph mergedTaskfile stdout].
  by rewrite !append_assoc.
Qed.

Lemma demo_cyclic : TaskfileGraph.cyclic Demo.cyclic_graph.
Proof.
  exists "./Taskfile.yml".
  apply tc_l with "./lib/Taskfile.yml"; [| apply tc_once];
    unfold TaskfileGraph.edge, Demo.cyclic_graph; simpl.
  - left.
  - right. left.
Qed.

Lemma main_cycle_is_fatal_witness :
  ∃ err,
    (λ _ : TaskfileGraph.t, inr "graph has cycles" : list string + string)
      Demo.cyclic_graph = inr err ∧
    main (λ _, inr "graph has cycles") 5 "default" Demo.cyclic_world
    = Panic ("Failed to sort graph: " +:+ err)
        (print_to Demo.cyclic_world
           (("=== Taskfile Graph Analysis ===" +:+ nl)
            +:+ ("Location: " +:+ "./Taskfile.yml" +:+ nl)
            +:+ ("Version: " +:+ "3" +:+ nl)
            +:+ nl
            +:+ ("=== Taskfile Inclusion Graph ===" +:+ nl))).
Proof.
  apply (main_cycle_is_fatal (λ _, inr "graph has cycles") Demo.cyclic_world 5 "default").
  - exact demo_cyclic.
  - intros hashes Hsort. discriminate Hsort.
Defined.

(** C7. From a start task whose reachable reference graph (dependencies and
    task calls) has no cycle, the renderer returns: fuel beyond the number
    of tasks of the document is never used, and all such fuels give the same
    text.  There is no guard against cycles: from a task that reaches a
    cycle the recursion has no end, whatever the fuel; in particular when
    [A] depends on [B] and [B] depends on [A]. *)
Theorem showDependencyTree_termination (w : World) (start : string) (d : Z) :
  let tf := mergedTaskfile w in
  (acyclic_from tf start →
   ∃ out, ∀ fuel, (length (Tasks.keys (Taskfile.Tasks tf)) < fuel)%nat →
     showDependencyTree fuel start d w = Returned tt (print_to w out))
  ∧ (∀ n, rtc (calls tf) start n → tc (calls tf) n n →
     ∀ fuel, showDependencyTree fuel start d w = OutOfFuel)
  ∧ (∀ (A B : string) (ta tb : Task.t),
       Tasks.Get (Taskfile.Tasks tf) A = Some ta →
       Tasks.Get (Taskfile.Tasks tf) B = Some tb →
       B ∈ Dep.Task <$> Task.Deps ta →
       A ∈ Dep.Task <$> Task.Deps tb →
       ∀ fuel d', showDependencyTree fuel A d' w = OutOfFuel).
Proof.
  intros tf. split; [| split].
  - intros Hacyc.
    destruct (tree_output_terminates w start d Hacyc) as [out Hout].
    exists out. intros fuel Hfuel. rewrite showDependencyTree_run.
    by rewrite (tree_output_le _ fuel _ _ _ _ Hfuel Hout).
  - intros n Hreach Hcycle fuel. rewrite showDependencyTree_run.
    by rewrite (tree_output_diverges w fuel start d n).
  - intros A B ta tb HA HB HAB HBA fuel d'. rewrite showDependencyTree_run.
    rewrite (tree_output_diverges w fuel A d' A); [done | apply rtc_refl |].
    apply tc_l with B; [| apply tc_once].
    + exists ta. split; [done |]. unfold children. apply elem_of_app. by left.
    + exists tb. split; [done |]. unfold children. apply elem_of_app. by left.
Qed.

Lemma demo_only_default_acyclic :
  acyclic_from (mergedTaskfile Demo.only_default) "default".
Proof.
  assert (∀ a b, ¬ calls (mergedTaskfile Demo.only_default) a b) as Hnone.
  { intros a b (task & Hget & Hin). simpl in Hget.
    case_decide; simplify_eq. by apply elem_of_nil in Hin. }
  intros n _ Hcycle. inversion Hcycle as [? ? Hcall|? ? ? Hcall _]; by eapply Hnone.
Qed.

Lemma showDependencyTree_termination_witness :
  (∃ out, ∀ fuel, (1 < fuel)%nat →
     showDependencyTree fuel "default" 0 Demo.only_default
     = Returned tt (print_to Demo.only_default out))
  ∧ (∀ fuel d', showDependencyTree fuel "ping" d' Demo.looping_world = OutOfFuel).
Proof.
  split.
  - apply (proj1 (showDependencyTree_termination Demo.only_default "default" 0)).
    exact demo_only_default_acyclic.
  - apply (proj2 (proj2 (showDependencyTree_termination Demo.looping_world "ping" 0))
             "ping" "pong" Demo.ping Demo.pong).
    + reflexivity.
    + reflexivity.
    + simpl. left.
    + simpl. left.
Defined.

(** C8. The flat task lister run twice in a row writes the same text both
    times: the text is a function of the tasks of the document in iteration
    order, and the first run leaves the document as it found it. *)
Theorem flatTaskLister_twice (w : World) :
  let s := concat_strings (task_block <$> Tasks.All (Taskfile.Tasks (mergedTaskfile w))) in
  flatTaskLister w = Returned tt (print_to w s)
  ∧ flatTaskLister (print_to w s) = Returned tt (print_to (print_to w s) s).
Proof.
  intros s. split.
  - by rewrite Printer_flatTaskLister, output_of_flatTaskLister.
  - by rewrite Printer_flatTaskLister, output_of_flatTaskLister.
Qed.

(** C9. The inclusion graph printer, the flat task lister, the builder of
    the dependency map and the tree renderer leave the merged Taskfile and
    the Taskfile graph as they were: after any run that ends, both are equal
    to what they were before. *)
Theorem core_preserves_document (hashes : list string) (fuel : nat)
    (taskName : string) (depth : Z) :
  preserves (inclusionGraphPrinter hashes)
  ∧ preserves flatTaskLister
  ∧ preserves buildTaskDependencyGraph
  ∧ preserves (showDependencyTree fuel taskName depth).
Proof.
  split; [| split; [| split]].
  - apply Printer_preserves, Printer_inclusionGraphPrinter.
  - apply Printer_preserves, Printer_flatTaskLister.
  - apply preserves_buildTaskDependencyGraph.
  - apply Printer_preserves, Printer_showDependencyTree.
Qed.

(** C10. In the flat task lister a command entry with an empty literal and
    an empty task reference writes nothing, and one with both non-empty
    writes its [cmd] line and then its [task] line.  The tree renderer
    recurses into a command entry exactly when its task reference is not
    empty, the literal playing no part: an entry with an empty reference
    adds nothing and uses no fuel, any other adds the subtree of the task it
    names. *)
Theorem command_entry_renderings (w : World) (cmd : Cmd.t) :
  (Cmd.Cmd cmd = "" → Cmd.Task cmd = "" → listCmd cmd w = Returned tt w)
  ∧ (Cmd.Cmd cmd ≠ "" → Cmd.Task cmd ≠ "" →
     listCmd cmd w
     = Returned tt (print_to w
         (("    - cmd: " +:+ Cmd.Cmd cmd +:+ nl)
          +:+ ("    - task: " +:+ Cmd.Task cmd +:+ nl))))
  ∧ (∀ (fuel : nat) (taskName : string) (task : Task.t) (depth : Z),
       Tasks.Get (Taskfile.Tasks (mergedTaskfile w)) taskName = Some task →
       tree_output (S fuel) w taskName depth =
         ds ← mapM (λ dep, tree_output fuel w (Dep.Task dep) (add_int depth 1))
                   (Task.Deps task);
         cs ← mapM (λ entry,
                      if decide (Cmd.Task entry = "") then Some ""
                      else tree_output fuel w (Cmd.Task entry) (add_int depth 1))
                   (Task.Cmds task);
         Some (indent_of depth +:+ taskName +:+ desc_suffix task +:+ nl
               +:+ concat_strings ds +:+ concat_strings cs)).
Proof.
  split; [| split].
  - intros Hc Ht. rewrite Printer_listCmd, output_of_listCmd.
    unfold cmd_lines. rewrite !decide_True by done. apply f_equal, print_to_nil.
  - intros Hc Ht. rewrite Printer_listCmd, output_of_listCmd.
    unfold cmd_lines. by rewrite !decide_False by done.
  - intros fuel taskName task depth Hget. by apply tree_output_by_entry.
Qed.

Lemma command_entry_renderings_witness :
  listCmd Demo.both Demo.world
  = Returned tt (print_to Demo.world
      (("    - cmd: " +:+ "echo hi" +:+ nl) +:+ ("    - task: " +:+ "build" +:+ nl))).
Proof.
  apply (proj1 (proj2 (command_entry_renderings Demo.world Demo.both)));
    discriminate.
Defined.


(** * Further properties of the code *)

(** ** [buildTaskDependencyGraph] *)

Lemma foldl_snoc_fmap {X Y} (f : X → Y) (l : list X) (init : list Y) :
  foldl (λ acc x, acc ++ [f x]) init l = init ++ (f <$> l).
Proof.
  revert init. induction l as [|x l IH]; intros init; simpl.
  - by rewrite app_nil_r.
  - by rewrite IH, <- app_assoc.
Qed.

Lemma foldl_snoc_calls (cmds : list Cmd.t) (init : list string) :
  foldl (λ acc cmd, if nonempty (Cmd.Task cmd) then acc ++ [Cmd.Task cmd] else acc)
        init cmds
  = init ++ filter (λ n, n ≠ "") (Cmd.Task <$> cmds).
Proof.
  revert init. induction cmds as [|cmd cmds IH]; intros init; simpl.
  - by rewrite app_nil_r.
  - rewrite IH. unfold nonempty. case_bool_decide as Hne.
    + rewrite filter_cons_True by done. by rewrite <- app_assoc.
    + by rewrite filter_cons_False by (intros H; by apply H).
Qed.

(** The slice built for one task holds what the tree renderer recurses into. *)
Lemma taskDeps_of_children (task : Task.t) : taskDeps_of task = children task.
Proof.
  unfold taskDeps_of, children, call_names.
  by rewrite foldl_snoc_calls, foldl_snoc_fmap.
Qed.

Lemma Get_None_keys (ts : Tasks.t) (key : string) :
  Tasks.Get ts key = None ↔ key ∉ Tasks.keys ts.
Proof.
  unfold Tasks.keys. induction ts as [|[k v] ts IH]; simpl.
  - split; [intros _; apply not_elem_of_nil | done].
  - rewrite not_elem_of_cons, <- IH. case_decide; simplify_eq.
    + split; [done | by intros [? _]].
    + split; [by intros ? | by intros [_ ?]].
Qed.

Lemma deps_map_dom (all : list (string * Task.t)) (m : gmap string (list string))
    (name : string) :
  is_Some (foldl (λ (deps : gmap string (list string)) '(taskName, task),
                    <[taskName := taskDeps_of task]> deps) m all !! name)
  ↔ is_Some (m !! name) ∨ name ∈ all.*1.
Proof.
  revert m. induction all as [|[k t] all IH]; intros m; simpl.
  - rewrite elem_of_nil. tauto.
  - rewrite IH, lookup_insert_is_Some, elem_of_cons.
    destruct (decide (k = name)) as [->|Hne]; [tauto |].
    split; [intros [[?|[_ ?]]|?] | intros [?|[?|?]]]; auto; congruence.
Qed.

Lemma deps_map_lookup (all : list (string * Task.t)) (m : gmap string (list string))
    (name : string) :
  NoDup (all.*1) →
  foldl (λ (deps : gmap string (list string)) '(taskName, task),
           <[taskName := taskDeps_of task]> deps) m all !! name
  = match Tasks.Get all name with
    | Some task => Some (taskDeps_of task)
    | None => m !! name
    end.
Proof.
  revert m. induction all as [|[k t] all IH]; intros m Hnd; [done |].
  rewrite fmap_cons in Hnd. apply NoDup_cons in Hnd as [Hk Hnd].
  simpl. rewrite IH by done. case_decide as Hkn.
  - subst k. rewrite (proj2 (Get_None_keys all name)) by done.
    by rewrite lookup_insert_eq.
  - destruct (Tasks.Get all name); [done |]. by rewrite lookup_insert_ne.
Qed.

(** X1. [buildTaskDependencyGraph] returns without writing anything, and the
    map it returns has an entry exactly for the task names of the document. *)
Theorem buildTaskDependencyGraph_domain (w : World) :
  ∃ deps : gmap string (list string),
    buildTaskDependencyGraph w = Returned deps w ∧
    ∀ name, is_Some (deps !! name)
            ↔ name ∈ Tasks.keys (Taskfile.Tasks (mergedTaskfile w)).
Proof.
  eexists. split; [reflexivity |].
  intros name. unfold Tasks.All, Tasks.keys. rewrite deps_map_dom, lookup_empty.
  split; [intros [[? ?]|?]; done | by right].
Qed.

(** X2. When the task names of the document are pairwise distinct, the entry
    of a task in the returned map is the list of its explicit dependencies in
    declared order followed by the task references of its commands that are
    not empty, in declared order; a name the document does not define has no
    entry. *)
Theorem buildTaskDependencyGraph_lookup (w : World) (name : string) :
  let tasks := Taskfile.Tasks (mergedTaskfile w) in
  NoDup (Tasks.keys tasks) →
  ∃ deps : gmap string (list string),
    buildTaskDependencyGraph w = Returned deps w ∧
    deps !! name
    = (λ task, (Dep.Task <$> Task.Deps task)
               ++ filter (λ n, n ≠ "") (Cmd.Task <$> Task.Cmds task))
      <$> Tasks.Get tasks name.
Proof.
  intros tasks Hnd. eexists. split; [reflexivity |].
  unfold Tasks.All. fold tasks. rewrite deps_map_lookup by done.
  destruct (Tasks.Get tasks name) as [task|]; simpl; [|done].
  by rewrite taskDeps_of_children.
Qed.

Lemma demo_keys_NoDup : NoDup (Tasks.keys (Taskfile.Tasks (mergedTaskfile Demo.world))).
Proof.
  change (NoDup ["build"; "test"; "default"]).
  repeat (apply NoDup_cons; split;
          [rewrite ?elem_of_cons, elem_of_nil; intros H; decompose [or] H;
           (discriminate || contradiction) |]).
  apply NoDup_nil_2.
Qed.

Lemma buildTaskDependencyGraph_lookup_witness :
  ∃ deps : gmap string (list string),
    buildTaskDependencyGraph Demo.world = Returned deps Demo.world ∧
    deps !! "default" = Some ["test"].
Proof.
  apply (buildTaskDependencyGraph_lookup Demo.world "default").
  exact demo_keys_NoDup.
Defined.

(** X3. The tree renderer and the dependency map agree: with pairwise
    distinct task names, the renderer recurses at the next depth into the
    names the map lists for the task, in the order of the list, and it
    writes the [(not found)] line for exactly the names without an entry. *)
Theorem showDependencyTree_follows_map (w : World) (fuel : nat) (name : string)
    (depth : Z) (deps : gmap string (list string)) :
  let tasks := Taskfile.Tasks (mergedTaskfile w) in
  NoDup (Tasks.keys tasks) →
  buildTaskDependencyGraph w = Returned deps w →
  match deps !! name with
  | Some names =>
      ∃ task, Tasks.Get tasks name = Some task ∧
        showDependencyTree (S fuel) name depth w =
          match mapM (λ n, tree_output fuel w n (add_int depth 1)) names with
          | Some subtrees =>
              Returned tt (print_to w
                (indent_of depth +:+ name +:+ desc_suffix task +:+ nl
                 +:+ concat_strings subtrees))
          | None => OutOfFuel
          end
  | None =>
      showDependencyTree (S fuel) name depth w
      = Returned tt (print_to w (indent_of depth +:+ name +:+ " (not found)" +:+ nl))
  end.
Proof.
  intros tasks Hnd Hrun.
  assert (deps !! name = taskDeps_of <$> Tasks.Get tasks name) as Hlookup.
  { injection Hrun as <-. unfold Tasks.All. fold tasks.
    rewrite deps_map_lookup by done. by destruct (Tasks.Get tasks name). }
  rewrite showDependencyTree_run.
  destruct (Tasks.Get tasks name) as [task|] eqn:Hget; rewrite Hlookup.
  - exists task. split; [done |].
    rewrite (tree_output_present _ _ _ task) by done.
    rewrite taskDeps_of_children. by destruct (mapM _ (children task)).
  - by rewrite tree_output_missing.
Qed.

Lemma showDependencyTree_follows_map_witness :
  showDependencyTree 1 "deploy" 0 Demo.world
  = Returned tt (print_to Demo.world ("deploy (not found)" +:+ nl)).
Proof.
  exact (showDependencyTree_follows_map Demo.world 0 "deploy" 0 _
           demo_keys_NoDup eq_refl).
Defined.

(** ** [showDependencyTree] *)

(** X4. A task with no explicit dependency and no command that calls a task
    is a leaf: the renderer writes its one line and makes no recursive call
    (one unit of fuel is enough). *)
Theorem showDependencyTree_leaf (w : World) (fuel : nat) (name : string)
    (task : Task.t) (depth : Z) :
  Tasks.Get (Taskfile.Tasks (mergedTaskfile w)) name = Some task →
  Task.Deps task = [] →
  Forall (λ cmd, Cmd.Task cmd = "") (Task.Cmds task) →
  showDependencyTree (S fuel) name depth w
  = Returned tt (print_to w (indent_of depth +:+ name +:+ desc_suffix task +:+ nl)).
Proof.
  intros Hget Hdeps Hcmds.
  rewrite showDependencyTree_run, (tree_output_present _ _ _ task) by done.
  unfold children. rewrite Hdeps, call_names_nil by done. simpl.
  by rewrite append_nil_r.
Qed.

Lemma showDependencyTree_leaf_witness :
  showDependencyTree 1 "build" 0 Demo.world
  = Returned tt (print_to Demo.world ("build" +:+ nl)).
Proof.
  apply (showDependencyTree_leaf Demo.world 0 "build" Demo.build 0).
  - reflexivity.
  - reflexivity.
  - repeat constructor.
Defined.

(** ** The inclusion graph printer on any list of hashes *)

Lemma output_of_vertex_body_any (i : nat) (hash : string) (w : World) :
  output_of (found ← Graph_Vertex hash;
             match found with
             | None => mret tt
             | Some vertex =>
                 printf (pretty (Z.of_nat i + 1) +:+ ". Taskfile: "
                         +:+ TaskfileVertex.URI vertex +:+ nl);;
                 printIncludes vertex
             end) w
  = Some (match TaskfileGraph.Vertex (taskfileGraph w) hash with
          | Some vertex => vertex_block (Z.of_nat i + 1) vertex
          | None => ""
          end).
Proof.
  destruct (TaskfileGraph.Vertex (taskfileGraph w) hash) as [vertex|] eqn:Hv.
  - by apply output_of_vertex_body.
  - rewrite (output_of_read (λ _ g, TaskfileGraph.Vertex g hash)). by rewrite Hv.
Qed.

Lemma output_of_inclusionGraphPrinter_any (start : nat) (hashes : list string) (w : World) :
  output_of (forM_indexed start hashes (λ i hash,
      found ← Graph_Vertex hash;
      match found with
      | None => mret tt
      | Some vertex =>
          printf (pretty (Z.of_nat i + 1) +:+ ". Taskfile: "
                  +:+ TaskfileVertex.URI vertex +:+ nl);;
          printIncludes vertex
      end)) w
  = Some (concat_strings
            (imap (λ i hash,
                     match TaskfileGraph.Vertex (taskfileGraph w) hash with
                     | Some vertex => vertex_block (Z.of_nat (start + i) + 1) vertex
                     | None => ""
                     end) hashes)).
Proof.
  revert start. induction hashes as [|h hashes IH]; intros start; [done |].
  simpl forM_indexed.
  rewrite output_of_seq
    by (apply Printer_vertex_body
        || (apply Printer_forM_indexed; intros; apply Printer_vertex_body)).
  rewrite output_of_vertex_body_any, IH. simpl. rewrite Nat.add_0_r. do 3 f_equal.
  apply imap_ext. intros i hash _. simpl.
  by replace (S (start + i))%nat with (start + S i)%nat by lia.
Qed.

Lemma inclusionGraphPrinter_run (w : World) (hashes : list string) :
  inclusionGraphPrinter hashes w
  = Returned tt (print_to w
      (concat_strings
         (imap (λ i hash,
                  match TaskfileGraph.Vertex (taskfileGraph w) hash with
                  | Some vertex => vertex_block (Z.of_nat i + 1) vertex
                  | None => ""
                  end) hashes))).
Proof.
  unfold inclusionGraphPrinter.
  rewrite (Printer_forM_indexed 0 _ _ Printer_vertex_body w).
  by rewrite output_of_inclusionGraphPrinter_any.
Qed.

(** X5. On any list of hashes the inclusion graph printer returns.  A hash
    with no vertex in the graph is passed over without a line, yet it takes
    its number: the block of the hash at index [i] carries [i+1] whatever
    was skipped before it.  A vertex without includes gets its numbered line
    only, without the [Includes:] header. *)
Theorem inclusionGraphPrinter_any_hashes (w : World) (hashes : list string) :
  inclusionGraphPrinter hashes w
  = Returned tt (print_to w
      (concat_strings
         (imap (λ i hash,
                  match TaskfileGraph.vertices (taskfileGraph w) !! hash with
                  | Some vertex =>
                      pretty (Z.of_nat i + 1) +:+ ". Taskfile: "
                      +:+ TaskfileVertex.URI vertex +:+ nl +:+
                      match Taskfile.Includes (TaskfileVertex.Taskfile vertex) with
                      | [] => ""
                      | includes =>
                          "   Includes:" +:+ nl +:+
                          concat_strings
                            ((λ entry, "     - " +:+ entry.1 +:+ ": "
                                       +:+ Include.Taskfile entry.2 +:+ nl)
                             <$> includes)
                      end
                  | None => ""
                  end) hashes))).
Proof. apply inclusionGraphPrinter_run. Qed.

(** ** [main] *)

Lemma Printer_dependencyTreeFrom (fuel : nat) (startTask : string) :
  Printer (dependencyTreeFrom fuel startTask).
Proof.
  unfold dependencyTreeFrom. apply Printer_seq; [apply Printer_printf |].
  apply (Printer_read (λ tf _, Tasks.Get (Taskfile.Tasks tf) startTask)).
  intros [task|]; [apply Printer_showDependencyTree |].
  apply Printer_seq; [apply Printer_printf |].
  apply Printer_seq; [apply Printer_printf |].
  apply (Printer_read (λ tf _, Tasks.All (Taskfile.Tasks tf))).
  intros all. apply Printer_forM_. intros [taskName task] _. apply Printer_printf.
Qed.

Lemma main_sorted (TopologicalSort : TaskfileGraph.t → list string + string)
    (w : World) (fuel : nat) (startTask : string) (hashes : list string) :
  TopologicalSort (taskfileGraph w) = inl hashes →
  main TopologicalSort fuel startTask w
  = match output_of (dependencyTreeFrom fuel startTask) w with
    | Some tree => Returned tt (print_to w (report_text w hashes +:+ tree))
    | None => OutOfFuel
    end.
Proof.
  intros Hsort. unfold main.
  cbv [mbind M_bind printf buildTaskDependencyGraph Tasks_All mret M_ret].
  cbn [taskfileGraph mergedTaskfile print_to]. rewrite Hsort.
  rewrite inclusionGraphPrinter_run.
  rewrite Printer_flatTaskLister, output_of_flatTaskLister.
  rewrite Printer_dependencyTreeFrom.
  match goal with
  | |- context [output_of ?m ?w'] =>
      change (output_of m w') with (output_of (dependencyTreeFrom fuel startTask) w)
  end.
  destruct (output_of (dependencyTreeFrom fuel startTask) w) as [tree|]; [|done].
  f_equal. unfold print_to, report_text.
  cbn [taskfileGraph mergedTaskfile stdout]. f_equal.
  by rewrite !append_assoc.
Qed.

Lemma main_sort_failed (TopologicalSort : TaskfileGraph.t → list string + string)
    (w : World) (fuel : nat) (startTask : string) (err : string) :
  TopologicalSort (taskfileGraph w) = inr err →
  main TopologicalSort fuel startTask w
  = Panic ("Failed to sort graph: " +:+ err)
      (print_to w
         (("=== Taskfile Graph Analysis ===" +:+ nl)
          +:+ ("Location: " +:+ Taskfile.Location (mergedTaskfile w) +:+ nl)
          +:+ ("Version: " +:+ Taskfile.Version (mergedTaskfile w) +:+ nl)
          +:+ nl
          +:+ ("=== Taskfile Inclusion Graph ===" +:+ nl))).
Proof.
  intros Hsort. unfold main. cbv [mbind M_bind printf panic].
  cbn [taskfileGraph mergedTaskfile print_to]. rewrite Hsort. f_equal.
  unfold print_to. cbn [taskfileGraph mergedTaskfile stdout].
  by rewrite !append_assoc.
Qed.

Lemma output_of_dependencyTreeFrom (fuel : nat) (startTask : string) (w : World) :
  output_of (dependencyTreeFrom fuel startTask) w
  = match Tasks.Get (Taskfile.Tasks (mergedTaskfile w)) startTask with
    | Some _ =>
        String.append
          ("=== Complete Dependency Tree from '" +:+ startTask +:+ "' task ===" +:+ nl)
        <$> tree_output fuel w startTask 0
    | None =>
        Some (("=== Complete Dependency Tree from '" +:+ startTask +:+ "' task ===" +:+ nl)
              +:+ ("Task '" +:+ startTask +:+ "' not found" +:+ nl)
              +:+ ("Available tasks:" +:+ nl)
              +:+ concat_strings
                    ((λ taskName, "  - " +:+ taskName +:+ nl)
                     <$> Tasks.keys (Taskfile.Tasks (mergedTaskfile w))))
    end.
Proof.
  unfold dependencyTreeFrom.
  assert (∀ found : option Task.t, Printer
    match found with
    | Some _ => showDependencyTree fuel startTask 0
    | None =>
        printf ("Task '" +:+ startTask +:+ "' not found" +:+ nl);;
        printf ("Available tasks:" +:+ nl);;
        all ← Tasks_All;
        forM_ all (λ '(taskName, _), printf ("  - " +:+ taskName +:+ nl))
    end) as HP.
  { intros [task|]; [apply Printer_showDependencyTree |].
    apply Printer_seq; [apply Printer_printf |].
    apply Printer_seq; [apply Printer_printf |].
    apply (Printer_read (λ tf _, Tasks.All (Taskfile.Tasks tf))).
    intros all. apply Printer_forM_. intros [taskName task] _. apply Printer_printf. }
  rewrite output_of_seq;
    [| apply Printer_printf
     | apply (Printer_read (λ tf _, Tasks.Get (Taskfile.Tasks tf) startTask)), HP].
  rewrite output_of_printf.
  rewrite (output_of_read (λ tf _, Tasks.Get (Taskfile.Tasks tf) startTask)).
  destruct (Tasks.Get (Taskfile.Tasks (mergedTaskfile w)) startTask) as [task|]; simpl.
  - fold (tree_output fuel w startTask 0).
    by destruct (tree_output fuel w startTask 0).
  - unfold output_of, Tasks_All. cbv [mbind M_bind printf].
    cbn [mergedTaskfile set_stdout print_to stdout].
    rewrite (forM_ext _ _ (λ entry, printf ("  - " +:+ entry.1 +:+ nl)))
      by (by intros [? ?]).
    rewrite (Printer_printf_loop _ (λ entry : string * Task.t, "  - " +:+ entry.1 +:+ nl)).
    rewrite output_of_printf_loop. cbn [print_to stdout].
    unfold Tasks.keys, Tasks.All. rewrite <- list_fmap_compose.
    cbn [set_stdout stdout option_bind]. f_equal.
    change ("" +:+ "Task '" +:+ startTask +:+ "' not found" +:+ nl)
      with ("Task '" +:+ startTask +:+ "' not found" +:+ nl).
    by rewrite !append_assoc.
Qed.

(** X6. When the topological sort succeeds, [main] never panics.  It writes
    the report header, the inclusion graph, the flat task list and the
    banner of the tree section; then, if the start task is not defined, the
    not-found message and the list of task names, and it returns whatever
    the fuel; otherwise the dependency tree from depth 0, and it returns
    exactly when the tree renderer does. *)
Theorem main_after_successful_sort
    (TopologicalSort : TaskfileGraph.t → list string + string)
    (w : World) (fuel : nat) (startTask : string) (hashes : list string) :
  let tasks := Taskfile.Tasks (mergedTaskfile w) in
  let banner :=
    "=== Complete Dependency Tree from '" +:+ startTask +:+ "' task ===" +:+ nl in
  TopologicalSort (taskfileGraph w) = inl hashes →
  main TopologicalSort fuel startTask w
  = match Tasks.Get tasks startTask with
    | Some _ =>
        match tree_output fuel w startTask 0 with
        | Some tree =>
            Returned tt (print_to w (report_text w hashes +:+ banner +:+ tree))
        | None => OutOfFuel
        end
    | None =>
        Returned tt (print_to w
          (report_text w hashes +:+ banner
           +:+ ("Task '" +:+ startTask +:+ "' not found" +:+ nl)
           +:+ ("Available tasks:" +:+ nl)
           +:+ concat_strings ((λ taskName, "  - " +:+ taskName +:+ nl)
                               <$> Tasks.keys tasks)))
    end.
Proof.
  intros tasks banner Hsort. rewrite (main_sorted _ _ _ _ hashes) by done.
  rewrite output_of_dependencyTreeFrom. fold tasks. fold banner.
  destruct (Tasks.Get tasks startTask) as [task|]; [|done].
  by destruct (tree_output fuel w startTask 0).
Qed.

Lemma main_after_successful_sort_witness :
  main (λ _, inl ["./Taskfile.yml"; "./lib/Taskfile.yml"]) 3 "default" Demo.world
  = Returned tt (print_to Demo.world
      (report_text Demo.world ["./Taskfile.yml"; "./lib/Taskfile.yml"]
       +:+ ("=== Complete Dependency Tree from 'default' task ===" +:+ nl)
       +:+ ("default" +:+ nl +:+ "  test" +:+ nl +:+ "    build" +:+ nl))).
Proof.
  apply (main_after_successful_sort
           (λ _, inl ["./Taskfile.yml"; "./lib/Taskfile.yml"]) Demo.world 3 "default"
           ["./Taskfile.yml"; "./lib/Taskfile.yml"]).
  reflexivity.
Defined.

(** X7. From its first printed line on, [main] panics in one case only: the
    topological sort returned an error.  The message is that error after
    ["Failed to sort graph: "], and standard output then holds the report
    header and the banner of the inclusion graph and nothing more. *)
Theorem main_panics_iff_sort_fails
    (TopologicalSort : TaskfileGraph.t → list string + string)
    (w : World) (fuel : nat) (startTask : string) (msg : string) (w' : World) :
  main TopologicalSort fuel startTask w = Panic msg w'
  ↔ ∃ err,
      TopologicalSort (taskfileGraph w) = inr err ∧
      msg = "Failed to sort graph: " +:+ err ∧
      w' = print_to w
             (("=== Taskfile Graph Analysis ===" +:+ nl)
              +:+ ("Location: " +:+ Taskfile.Location (mergedTaskfile w) +:+ nl)
              +:+ ("Version: " +:+ Taskfile.Version (mergedTaskfile w) +:+ nl)
              +:+ nl
              +:+ ("=== Taskfile Inclusion Graph ===" +:+ nl)).
Proof.
  destruct (TopologicalSort (taskfileGraph w)) as [hashes|err] eqn:Hsort.
  - rewrite (main_sorted _ _ _ _ hashes) by done. split.
    + by destruct (output_of (dependencyTreeFrom fuel startTask) w).
    + by intros (err & Herr & _).
  - rewrite (main_sort_failed _ _ _ _ err) by done. split.
    + intros Hpanic. injection Hpanic as <- <-. by exists err.
    + intros (err' & Herr & -> & ->). by simplify_eq.
Qed.

(** ** The dependency tree section *)

(** X8. When the start task is defined, the tree section writes its banner
    and then the tree rendered from depth 0: the line of the start task
    comes without indentation, followed by the subtrees of its children at
    depth 1. *)
Theorem dependencyTreeFrom_defined_start (w : World) (fuel : nat) (startTask : string)
    (task : Task.t) :
  Tasks.Get (Taskfile.Tasks (mergedTaskfile w)) startTask = Some task →
  dependencyTreeFrom (S fuel) startTask w
  = match mapM (λ n, tree_output fuel w n 1)
               ((Dep.Task <$> Task.Deps task)
                ++ filter (λ n, n ≠ "") (Cmd.Task <$> Task.Cmds task)) with
    | Some subtrees =>
        Returned tt (print_to w
          (("=== Complete Dependency Tree from '" +:+ startTask +:+ "' task ===" +:+ nl)
           +:+ startTask
           +:+ (if decide (Task.Desc task = "") then "" else " - " +:+ Task.Desc task)
           +:+ nl +:+ concat_strings subtrees))
    | None => OutOfFuel
    end.
Proof.
  intros Hget. rewrite Printer_dependencyTreeFrom, output_of_dependencyTreeFrom, Hget.
  rewrite (tree_output_present _ _ _ task) by done.
  fold (children task). change (add_int 0 1) with 1.
  by destruct (mapM _ (children task)).
Qed.

Lemma dependencyTreeFrom_defined_start_witness :
  dependencyTreeFrom 3 "default" Demo.world
  = Returned tt (print_to Demo.world
      (("=== Complete Dependency Tree from 'default' task ===" +:+ nl)
       +:+ "default" +:+ nl +:+ ("  test" +:+ nl +:+ "    build" +:+ nl))).
Proof.
  apply (dependencyTreeFrom_defined_start Demo.world 2 "default" Demo.default).
  reflexivity.
Defined.

(** ** The order of the tasks in the document *)

Lemma Get_Some_elem (ts : Tasks.t) (key : string) (task : Task.t) :
  NoDup (Tasks.keys ts) → Tasks.Get ts key = Some task ↔ (key, task) ∈ ts.
Proof.
  unfold Tasks.keys. induction ts as [|[k v] ts IH]; intros Hnd.
  - simpl. split; [done | by intros ?%elem_of_nil].
  - rewrite fmap_cons in Hnd. apply NoDup_cons in Hnd as [Hk Hnd].
    simpl. rewrite elem_of_cons. case_decide as Hkey.
    + subst k. split; [intros ?; simplify_eq; by left |].
      intros [?|Hin]; [by simplify_eq |].
      destruct Hk. apply list_elem_of_fmap. by exists (key, task).
    + rewrite IH by done. split; [by right |]. intros [?|?]; [by simplify_eq | done].
Qed.

Lemma Get_Permutation (ts1 ts2 : Tasks.t) (key : string) :
  NoDup (Tasks.keys ts1) → ts1 ≡ₚ ts2 → Tasks.Get ts1 key = Tasks.Get ts2 key.
Proof.
  intros Hnd Hperm.
  assert (NoDup (Tasks.keys ts2)) as Hnd2 by (unfold Tasks.keys; by rewrite <- Hperm).
  apply option_eq. intros task. rewrite !Get_Some_elem by done. by rewrite Hperm.
Qed.

Lemma tree_output_same_lookups (w1 w2 : World) (fuel : nat) :
  (∀ key, Tasks.Get (Taskfile.Tasks (mergedTaskfile w1)) key
          = Tasks.Get (Taskfile.Tasks (mergedTaskfile w2)) key) →
  ∀ (taskName : string) (depth : Z),
    tree_output fuel w1 taskName depth = tree_output fuel w2 taskName depth.
Proof.
  intros Hget. induction fuel as [|fuel IH]; intros taskName depth; [done |].
  destruct (Tasks.Get (Taskfile.Tasks (mergedTaskfile w1)) taskName) as [task|] eqn:H1.
  - rewrite (tree_output_present fuel w1 _ task) by done.
    rewrite (tree_output_present fuel w2 _ task) by (by rewrite <- Hget).
    by rewrite (mapM_ext _ (λ n, tree_output fuel w2 n (add_int depth 1))).
  - rewrite (tree_output_missing fuel w1) by done.
    by rewrite (tree_output_missing fuel w2) by (by rewrite <- Hget).
Qed.

(** X9. The dependency tree does not depend on the order in which the
    document yields its tasks: for two documents with the same entries in a
    different order (task names pairwise distinct), the renderer writes the
    same text for every task name, depth and fuel. *)
Theorem showDependencyTree_order_independent (w1 w2 : World) (fuel : nat)
    (taskName : string) (depth : Z) :
  NoDup (Tasks.keys (Taskfile.Tasks (mergedTaskfile w1))) →
  Taskfile.Tasks (mergedTaskfile w1) ≡ₚ Taskfile.Tasks (mergedTaskfile w2) →
  tree_output fuel w1 taskName depth = tree_output fuel w2 taskName depth
  ∧ ∀ s, showDependencyTree fuel taskName depth w1 = Returned tt (print_to w1 s)
         ↔ showDependencyTree fuel taskName depth w2 = Returned tt (print_to w2 s).
Proof.
  intros Hnd Hperm.
  assert (tree_output fuel w1 taskName depth = tree_output fuel w2 taskName depth) as Heq.
  { apply tree_output_same_lookups. intros key. by apply Get_Permutation. }
  split; [done |]. intros s. by rewrite <- !tree_output_spec, Heq.
Qed.

Lemma showDependencyTree_order_independent_witness :
  tree_output 3 Demo.world "default" 0
  = tree_output 3
      (mkWorld (Taskfile.Build "./Taskfile.yml" "3" []
                  (reverse (Taskfile.Tasks Demo.taskfile)))
               Demo.graph "") "default" 0.
Proof.
  apply (showDependencyTree_order_independent Demo.world
           (mkWorld (Taskfile.Build "./Taskfile.yml" "3" []
                       (reverse (Taskfile.Tasks Demo.taskfile)))
                    Demo.graph "") 3 "default" 0).
  - exact demo_keys_NoDup.
  - symmetry. apply reverse_Permutation.
Defined.

(** ** The flat task lister *)

(** X10. The [Commands:] header of the flat task lister follows the length
    of the command slice, not what is printed under it: a task whose command
    entries all have an empty literal and an empty task reference still gets
    the header, with no line below it. *)
Theorem listTask_header_without_entries (w : World) (taskName : string) (task : Task.t) :
  Task.Cmds task ≠ [] →
  Forall (λ cmd, Cmd.Cmd cmd = "" ∧ Cmd.Task cmd = "") (Task.Cmds task) →
  listTask taskName task w
  = Returned tt (print_to w
      ("Task: " +:+ taskName
       +:+ (if decide (Task.Desc task = "") then "" else " - " +:+ Task.Desc task)
       +:+ nl
       +:+ match Task.Deps task with
           | [] => ""
           | deps => "  Dependencies:" +:+ nl
                     +:+ concat_strings ((λ dep, "    - " +:+ Dep.Task dep +:+ nl) <$> deps)
           end
       +:+ ("  Commands:" +:+ nl)
       +:+ nl)).
Proof.
  intros Hne Hall. rewrite Printer_listTask, output_of_listTask.
  unfold task_block. simpl fst. simpl snd.
  assert (concat_strings (cmd_lines <$> Task.Cmds task) = "") as Hnone.
  { clear Hne. induction Hall as [|cmd cmds [Hc Ht] _ IH]; [done |].
    rewrite fmap_cons. simpl. rewrite IH. unfold cmd_lines.
    by rewrite !decide_True by done. }
  destruct (Task.Cmds task) as [|cmd cmds]; [done |].
  rewrite Hnone, append_nil_r. fold (desc_suffix task).
  by rewrite !append_assoc.
Qed.

Lemma listTask_header_without_entries_witness :
  listTask "noop" (Task.Build "" [] [Cmd.Build "" ""]) Demo.world
  = Returned tt (print_to Demo.world
      ("Task: noop" +:+ nl +:+ "  Commands:" +:+ nl +:+ nl)).
Proof.
  apply (listTask_header_without_entries Demo.world "noop"
           (Task.Build "" [] [Cmd.Build "" ""])).
  - discriminate.
  - repeat constructor.
Defined.

(** X11. On a document without tasks the flat task lister writes nothing,
    the dependency map is empty, and the tree section, whatever the start
    task and the fuel, writes its banner, the not-found message and the line
    [Available tasks:] with no name under it. *)
Theorem empty_document (w : World) (fuel : nat) (startTask : string) :
  Taskfile.Tasks (mergedTaskfile w) = [] →
  flatTaskLister w = Returned tt w
  ∧ buildTaskDependencyGraph w = Returned ∅ w
  ∧ dependencyTreeFrom fuel startTask w
    = Returned tt (print_to w
        (("=== Complete Dependency Tree from '" +:+ startTask +:+ "' task ===" +:+ nl)
         +:+ ("Task '" +:+ startTask +:+ "' not found" +:+ nl)
         +:+ ("Available tasks:" +:+ nl))).
Proof.
  intros Hempty. split; [| split].
  - rewrite Printer_flatTaskLister, output_of_flatTaskLister, Hempty. simpl.
    by rewrite print_to_nil.
  - cbv [buildTaskDependencyGraph Tasks_All mbind M_bind mret M_ret].
    by rewrite Hempty.
  - rewrite Printer_dependencyTreeFrom, output_of_dependencyTreeFrom, Hempty. simpl.
    by rewrite !append_nil_r.
Qed.

Lemma empty_document_witness :
  flatTaskLister (mkWorld (Taskfile.Build "" "3" [] []) Demo.graph "kept")
  = Returned tt (mkWorld (Taskfile.Build "" "3" [] []) Demo.graph "kept").
Proof.
  apply (empty_document (mkWorld (Taskfile.Build "" "3" [] []) Demo.graph "kept")
           0 "default").
  reflexivity.
Defined.

(** ** No memory of what was rendered *)

Lemma mapM_replicate {A B} (f : A → option B) (x : A) (y : B) (k : nat) :
  f x = Some y → mapM f (replicate k x) = Some (replicate k y).
Proof. intros Hx. induction k as [|k IH]; [done |]. simpl. by rewrite Hx, IH. Qed.

(** X12. The renderer keeps no record of the tasks it has rendered: a task
    that names the same dependency [k] times gets the subtree of that
    dependency written [k] times. *)
Theorem showDependencyTree_repeats_subtrees (w : World) (fuel : nat) (name B : string)
    (task : Task.t) (depth : Z) (k : nat) (subtree : string) :
  Tasks.Get (Taskfile.Tasks (mergedTaskfile w)) name = Some task →
  Dep.Task <$> Task.Deps task = replicate k B →
  Forall (λ cmd, Cmd.Task cmd = "") (Task.Cmds task) →
  tree_output fuel w B (add_int depth 1) = Some subtree →
  showDependencyTree (S fuel) name depth w
  = Returned tt (print_to w
      (indent_of depth +:+ name +:+ desc_suffix task +:+ nl
       +:+ concat_strings (replicate k subtree))).
Proof.
  intros Hget Hdeps Hcmds HB.
  rewrite showDependencyTree_run, (tree_output_present _ _ _ task) by done.
  unfold children. rewrite Hdeps, call_names_nil, app_nil_r by done.
  by rewrite (mapM_replicate _ _ subtree).
Qed.

Lemma showDependencyTree_repeats_subtrees_witness :
  showDependencyTree 2 "all"  0
    (mkWorld (Taskfile.Build "" "3" []
                [("all", Task.Build "" [Dep.Build "lint"; Dep.Build "lint"] []);
                 ("lint", Task.Build "" [] [])])
             Demo.graph "")
  = Returned tt
      (print_to
         (mkWorld (Taskfile.Build "" "3" []
                     [("all", Task.Build "" [Dep.Build "lint"; Dep.Build "lint"] []);
                      ("lint", Task.Build "" [] [])])
                  Demo.graph "")
         ("all" +:+ nl +:+ ("  lint" +:+ nl) +:+ ("  lint" +:+ nl))).
Proof.
  apply (showDependencyTree_repeats_subtrees _ 1 "all" "lint"
           (Task.Build "" [Dep.Build "lint"; Dep.Build "lint"] []) 0 2
           ("  lint" +:+ nl)).
  - reflexivity.
  - reflexivity.
  - constructor.
  - reflexivity.
Defined.
